(** * polislite: the opinion plot of [plot_opinions.py]

    A shallow embedding of the three functions of [plot_opinions.py]
    ([load_from_yaml], [plot_opinion_clusters], [main]) and the properties
    of the rendering pipeline that are stated about them.

    Conventions of the embedding.
    - A vote token is a [string]; a numeric vote and a cluster label are
      integers ([Z]).
    - A NumPy [float64] coordinate is modelled by a real number ([R]): the
      geometry is verified in exact arithmetic, rounding is outside the
      model.
    - A Python exception is a value of [exn]; code that can raise returns
      a [result].
    - The libraries the script calls ([yaml], [numpy.random], [scipy]'s
      [ConvexHull], the analyzer of [polis_core], [pathlib], [matplotlib]'s
      [savefig] and [show]) are variables of a section; what is assumed of
      them is a hypothesis of the theorem that needs it. *)

From Stdlib Require Import ZArith QArith Qround Reals Lra Lia List String.
From Stdlib Require Import Sorted Permutation Ascii.
From stdpp Require Import base option list gmap strings.
Import ListNotations.

Local Open Scope Z_scope.
Local Open Scope string_scope.

(** * Part I: the program *)

(** ** Exceptions and results *)

Inductive exn : Type :=
  | ValueError
  | IndexError
  | QhullError
  | OtherError (msg : string).

Inductive result (A : Type) : Type :=
  | Ok (a : A)
  | Raise (e : exn).
Arguments Ok {A} a.
Arguments Raise {A} e.

(** Sequencing on results: an exception ends the computation. *)
Definition rbind {A B : Type} (r : result A) (k : A -> result B) : result B :=
  match r with
  | Ok a => k a
  | Raise e => Raise e
  end.

(** ** Vote matrix builder ([load_from_yaml]) *)

(** The parsed document: [data["statements"]] and [data["votes"]].  A Python
    dict keeps insertion order, and [.values()] and [.keys()] follow it, so
    the mapping is an association list. *)
Record document : Type := {
  statements : list string;
  votes : list (string * list string)
}.

(** [vote_map = {"agree": 1, "disagree": -1}] *)
Definition vote_map : gmap string Z :=
  <["agree" := 1]> (<["disagree" := -1]> ∅).

(** [vote_map.get(v, 0)] *)
Definition vote_value (v : string) : Z := default 0 (vote_map !! v).

(** [[vote_map.get(v, 0) for v in user_votes]] *)
Definition vote_row (user_votes : list string) : list Z :=
  map vote_value user_votes.

(** [[... for user_votes in data["votes"].values()]] *)
Definition vote_rows (data : document) : list (list Z) :=
  map (fun kv => vote_row (snd kv)) (votes data).

(** A two-dimensional integer array: its shape and its rows. *)
Record matrix : Type := {
  n_rows : nat;
  n_cols : nat;
  rows : list (list Z)
}.

(** [np.array(votes)] on a list of lists of integers.  Rows of one common
    length give a two-dimensional array; rows of different lengths raise
    [ValueError] (NumPy 1.24 and later: an inhomogeneous shape is refused).
    The empty list gives an array without rows. *)
Definition np_array (l : list (list Z)) : result matrix :=
  match l with
  | [] => Ok {| n_rows := 0; n_cols := 0; rows := [] |}
  | r :: rs =>
      if forallb (fun r' => Nat.eqb (length r') (length r)) rs
      then Ok {| n_rows := length l; n_cols := length r; rows := l |}
      else Raise ValueError
  end.

(** The body of [load_from_yaml], once the file has been read and parsed
    into [data]: the statements, the vote matrix and the participants. *)
Definition build (data : document)
  : result (list string * matrix * list string) :=
  rbind (np_array (vote_rows data)) (fun m =>
  Ok (statements data, m, map fst (votes data))).

(** ** NumPy on lists *)

Local Open Scope R_scope.

(** A row of a [(n, 2)] array of floats. *)
Definition point : Type := (R * R)%type.

(** [np.unique(clusters)]: the distinct labels, in increasing order. *)
Fixpoint insert_unique (x : Z) (l : list Z) : list Z :=
  match l with
  | [] => [x]
  | y :: l' =>
      if (x <? y)%Z then x :: l
      else if (x =? y)%Z then l
      else y :: insert_unique x l'
  end.

Definition np_unique (clusters : list Z) : list Z :=
  fold_right insert_unique [] clusters.

(** [points_2d[mask]] for a boolean [mask]: the rows where it is true. *)
Fixpoint select_rows (points_2d : list point) (mask : list bool)
  : list point :=
  match points_2d, mask with
  | p :: ps, b :: bs => if b then p :: select_rows ps bs else select_rows ps bs
  | _, _ => []
  end.

(** [points_2d[clusters == cluster_id]]: the rows whose label is
    [cluster_id].  A boolean index whose length is not the number of rows
    raises [IndexError]. *)
Definition mask_index (points_2d : list point) (clusters : list Z)
    (cluster_id : Z) : result (list point) :=
  if Nat.eqb (length clusters) (length points_2d)
  then Ok (select_rows points_2d (map (fun c => (c =? cluster_id)%Z) clusters))
  else Raise IndexError.

(** [cluster_points[hull.vertices]]: the rows at the given indices, an
    index past the end raises [IndexError]. *)
Fixpoint take_rows (cluster_points : list point) (vertices : list nat)
  : result (list point) :=
  match vertices with
  | [] => Ok []
  | i :: vs =>
      match cluster_points !! i, take_rows cluster_points vs with
      | Some p, Ok ps => Ok (p :: ps)
      | None, _ => Raise IndexError
      | _, Raise e => Raise e
      end
  end.

Definition Rsum (l : list R) : R := fold_right Rplus 0 l.

(** [np.mean(hull_points, axis=0)] *)
Definition np_mean (pts : list point) : point :=
  (Rsum (map fst pts) / INR (length pts), Rsum (map snd pts) / INR (length pts)).

(** [.min()] and [.max()] of a one-dimensional array; an empty array has no
    minimum and raises [ValueError]. *)
Definition np_min (l : list R) : result R :=
  match l with
  | [] => Raise ValueError
  | x :: l' => Ok (fold_left Rmin l' x)
  end.

Definition np_max (l : list R) : result R :=
  match l with
  | [] => Raise ValueError
  | x :: l' => Ok (fold_left Rmax l' x)
  end.

(** Row-wise binary operation on two arrays of the same number of rows. *)
Fixpoint rows2 {A B C : Type} (f : A -> B -> C) (l : list A) (m : list B)
  : list C :=
  match l, m with
  | a :: l', b :: m' => f a b :: rows2 f l' m'
  | _, _ => []
  end.

(** ** Cluster geometry (lines 30 to 40 of [plot_opinion_clusters]) *)

(** The margin by which the hull is pushed outwards. *)
Definition margin : R := 0.5.

(** [vectors = hull_points - centroid] *)
Definition vectors (hull_points : list point) (centroid : point)
  : list point :=
  map (fun p => (fst p - fst centroid, snd p - snd centroid)) hull_points.

(** [lengths = np.sqrt(np.sum(vectors**2, axis=1))] *)
Definition lengths (vs : list point) : list R :=
  map (fun v => sqrt (fst v ^ 2 + snd v ^ 2)) vs.

(** [normalized_vectors = vectors / lengths[:, np.newaxis]] *)
Definition normalized_vectors (vs : list point) (ls : list R) : list point :=
  rows2 (fun v l => (fst v / l, snd v / l)) vs ls.

(** [buffered_points = hull_points + normalized_vectors * 0.5] *)
Definition buffered_points (hull_points : list point) : list point :=
  let centroid := np_mean hull_points in
  let vs := vectors hull_points centroid in
  let ls := lengths vs in
  let ns := normalized_vectors vs ls in
  rows2 (fun p n => (fst p + fst n * margin, snd p + snd n * margin))
        hull_points ns.

(** [np.vstack((buffered_points, buffered_points[0]))]: the first row is
    repeated at the end; [buffered_points[0]] of an array without rows
    raises [IndexError]. *)
Definition close_polygon (bp : list point) : result (list point) :=
  match bp with
  | [] => Raise IndexError
  | p :: _ => Ok (bp ++ [p])%list
  end.

(** ** Colours *)

(** The argument of the colormap: [cluster_id / len(np.unique(clusters))],
    a quotient of two integers, kept exact. *)
Definition color_arg (cluster_id : Z) (clusters : list Z) : Q :=
  (inject_Z cluster_id / inject_Z (Z.of_nat (length (np_unique clusters))))%Q.

(** [plt.cm.viridis] on a float: a table of 256 pairwise distinct colours,
    read at [int(x * 256)]; an argument below 0 takes the first entry, an
    argument of 1 or more the last.  A colour is identified with its
    position in the table. *)
Definition viridis (x : Q) : Z :=
  if negb (Qle_bool 0 x) then 0%Z
  else if Qle_bool 1 x then 255%Z
  else Qfloor (x * 256)%Q.

Definition cluster_color (cluster_id : Z) (clusters : list Z) : Z :=
  viridis (color_arg cluster_id clusters).

(** ** Viewport (lines 60 to 65) *)

Record limits : Type := {
  xlim : R * R;
  ylim : R * R
}.

Definition view_limits (points_2d : list point) : result limits :=
  rbind (np_min (map fst points_2d)) (fun x_min =>
  rbind (np_max (map fst points_2d)) (fun x_max =>
  rbind (np_min (map snd points_2d)) (fun y_min =>
  rbind (np_max (map snd points_2d)) (fun y_max =>
  let padding_x := (x_max - x_min) * 0.2 in
  let padding_y := (y_max - y_min) * 0.2 in
  Ok {| xlim := (x_min - padding_x, x_max + padding_x);
        ylim := (y_min - padding_y, y_max + padding_y) |})))).

(** ** Effects: what the script does to the outside world *)

(** The result of the analyzer: [results["points_2d"]] and
    [results["clusters"]]. *)
Record analysis : Type := {
  points_2d : list point;
  clusters : list Z
}.

(** The observable actions of a run, in the order they happen. *)
Inductive event : Type :=
  | Analyze (vote_matrix : matrix) (stmts : list string)
  | Figure
  | AddPatch (polygon : list point) (color : Z)
  | Scatter (pts : list point) (c : list Z)
  | Annotate (user : string) (xy : point)
  | SetLimits (l : limits)
  | Decorate
  | Savefig (path : string)
  | Stdout (msg : string)
  | ShowFigure
  | CloseFigure.

Section Pipeline.

(** The state of NumPy's global random generator and one draw from the
    normal distribution of mean 0 and standard deviation 0.1. *)
Variable rng_state : Type.
Variable draw : rng_state -> R * rng_state.

(** [scipy.spatial.ConvexHull(points).vertices], or the exception it
    raises. *)
Variable ConvexHull : list point -> result (list nat).

(** [OpinionAnalyzer().analyze(votes, statements)] *)
Variable analyze : matrix -> list string -> result analysis.

(** [yaml.safe_load] of the opened file and [Path(f).with_suffix(ext)]. *)
Variable safe_load : string -> result document.
Variable with_suffix : string -> string -> string.

(** [plt.savefig(path, ...)] and [plt.show()]: what writing the image to
    [path], or presenting the figure, returns or raises. *)
Variable savefig : string -> result unit.
Variable show : result unit.

(** A computation reads and advances the random generator, emits events
    and returns or raises.  The events emitted before an exception stay. *)
Definition M (A : Type) : Type :=
  rng_state -> result A * list event * rng_state.

Definition ret {A : Type} (a : A) : M A := fun s => (Ok a, [], s).

Definition bind {A B : Type} (c : M A) (k : A -> M B) : M B :=
  fun s =>
    match c s with
    | (Ok a, ev, s') =>
        match k a s' with
        | (r, ev', s'') => (r, (ev ++ ev')%list, s'')
        end
    | (Raise e, ev, s') => (Raise e, ev, s')
    end.

Definition lift {A : Type} (r : result A) : M A := fun s => (r, [], s).

Definition emit (e : event) : M unit := fun s => (Ok tt, [e], s).

Definition random : M R :=
  fun s => match draw s with (x, s') => (Ok x, [], s') end.

Notation "x <- c ;; k" := (bind c (fun x => k))
  (at level 100, c at next level, right associativity).
Notation "c ;; k" := (bind c (fun _ => k))
  (at level 100, right associativity).

(** [for a in l: body(a)] *)
Fixpoint for_each {A : Type} (l : list A) (body : A -> M unit) : M unit :=
  match l with
  | [] => ret tt
  | a :: l' => body a ;; for_each l' body
  end.

(** [np.random.normal(0, 0.1, (n, 2))]: the rows are filled in order. *)
Fixpoint normal (n : nat) : M (list point) :=
  match n with
  | O => ret []
  | S n' =>
      a <- random ;;
      b <- random ;;
      rest <- normal n' ;;
      ret ((a, b) :: rest)
  end.

(** *** The boundary of one cluster (lines 30 to 40) *)

Definition cluster_boundary (cluster_points : list point)
  : result (option (list point)) :=
  if (3 <=? length cluster_points)%nat then
    rbind (ConvexHull cluster_points) (fun vertices =>
    rbind (take_rows cluster_points vertices) (fun hull_points =>
    rbind (close_polygon (buffered_points hull_points)) (fun polygon =>
    Ok (Some polygon))))
  else Ok None.

(** *** [plot_opinion_clusters] *)

(** The body of the loop over [np.unique(clusters)]. *)
Definition draw_hull (pts : list point) (cl : list Z) (cluster_id : Z)
  : M unit :=
  cluster_points <- lift (mask_index pts cl cluster_id) ;;
  boundary <- lift (cluster_boundary cluster_points) ;;
  match boundary with
  | Some polygon => emit (AddPatch polygon (cluster_color cluster_id cl))
  | None => ret tt
  end.

(** [plt.scatter(x, y, c=clusters, ...)]: as many colours as points, or no
    colour at all (an empty [c] is accepted); any other number raises
    [ValueError]. *)
Definition scatter (pts : list point) (cl : list Z) : M unit :=
  if Nat.eqb (length cl) (length pts) || Nat.eqb (length cl) 0
  then emit (Scatter pts cl)
  else lift (Raise ValueError).

(** [enumerate(usernames)] *)
Definition enumerate {A : Type} (l : list A) : list (nat * A) :=
  combine (seq 0 (length l)) l.

(** The body of the loop over the user names; [points_2d[i, 0]] past the
    last row raises [IndexError]. *)
Definition annotate (pts : list point) (iu : nat * string) : M unit :=
  match pts !! fst iu with
  | Some xy => emit (Annotate (snd iu) xy)
  | None => lift (Raise IndexError)
  end.

(** [if output_path: savefig, print else: show]; the empty string counts
    as no path.  The image counts as saved, and the figure as shown, once
    the call has returned. *)
Definition save_or_show (output_path : option string) : M unit :=
  match output_path with
  | Some path =>
      if String.eqb path "" then (lift show ;; emit ShowFigure)
      else (lift (savefig path) ;;
            emit (Savefig path) ;;
            emit (Stdout ("Plot saved to " ++ path)))
  | None => lift show ;; emit ShowFigure
  end.

Definition plot_opinion_clusters (pts : list point) (cl : list Z)
    (usernames : list string) (output_path : option string) : M unit :=
  emit Figure ;;
  for_each (np_unique cl) (draw_hull pts cl) ;;
  scatter pts cl ;;
  for_each (enumerate usernames) (annotate pts) ;;
  lim <- lift (view_limits pts) ;;
  emit (SetLimits lim) ;;
  emit Decorate ;;
  save_or_show output_path ;;
  emit CloseFigure.

(** *** [load_from_yaml] and [main] *)

Definition load_from_yaml (filepath : string)
  : result (list string * matrix * list string) :=
  rbind (safe_load filepath) build.

(** [points_2d + jitter] *)
Definition add_jitter (pts jitter : list point) : list point :=
  rows2 (fun p j => (fst p + fst j, snd p + snd j)) pts jitter.

Definition main (yaml_file : string) : M unit :=
  loaded <- lift (load_from_yaml yaml_file) ;;
  let '(stmts, vote_matrix, usernames) := loaded in
  emit (Analyze vote_matrix stmts) ;;
  results <- lift (analyze vote_matrix stmts) ;;
  jitter <- normal (length (points_2d results)) ;;
  let jittered_points := add_jitter (points_2d results) jitter in
  let output_path := with_suffix yaml_file ".png" in
  plot_opinion_clusters jittered_points (clusters results) usernames
    (Some output_path).

End Pipeline.

Arguments ret {rng_state A} a.
Arguments lift {rng_state A} r.
Arguments emit {rng_state} e.
Arguments bind {rng_state A B} c k.
Arguments for_each {rng_state A} l body.

(** The outcome, the events and the final generator state of a run. *)
Definition outcome {S A : Type} (r : result A * list event * S) : result A :=
  fst (fst r).
Definition events {S A : Type} (r : result A * list event * S) : list event :=
  snd (fst r).
Definition final {S A : Type} (r : result A * list event * S) : S :=
  snd r.

(** * Part II: notions of the specification *)

(** The rank of a label among the distinct labels: its position in
    [np.unique(clusters)]. *)
Fixpoint position (x : Z) (l : list Z) : option nat :=
  match l with
  | [] => None
  | y :: l' => if (x =? y)%Z then Some 0%nat else option_map S (position x l')
  end.

Definition rank (cluster_id : Z) (clusters : list Z) : option nat :=
  position cluster_id (np_unique clusters).

(** The Euclidean distance of two points. *)
Definition dist (p q : point) : R :=
  sqrt ((fst p - fst q) ^ 2 + (snd p - snd q) ^ 2).

(** One row of [buffered_points], written for a single vertex: the vertex
    [p] pushed away from [c] ([buffered_points_rows] below). *)
Definition push (c p : point) : point :=
  let v := (fst p - fst c, snd p - snd c) in
  let l := sqrt (fst v ^ 2 + snd v ^ 2) in
  (fst p + fst v / l * margin, snd p + snd v / l * margin).

(** A computation that neither reads nor advances the random generator:
    from any two generator states it returns the same outcome and emits
    the same events, and it leaves the state as it found it. *)
Definition generator_free {S A : Type} (c : M S A) : Prop :=
  forall s s' : S,
    outcome (c s) = outcome (c s') /\ events (c s) = events (c s') /\
    final (c s) = s.

(** The events of the hull loop. *)
Definition hull_event (ev : event) : Prop :=
  exists polygon color, ev = AddPatch polygon color.

(** *** What a successful [ConvexHull] returns

    The part of SciPy's contract the properties below rest on.  A point of
    [pts] is a vertex of the hull when a line through it leaves every other
    point of [pts] strictly on one side.  When the call succeeds,
    [vertices] indexes at least three distinct points of [pts], each a
    vertex of the hull.  Nothing is assumed of a call that raises: Qhull
    refuses points on one line, and also points that are too close to one
    line for its precision. *)

Definition is_vertex (pts : list point) (p : point) : Prop :=
  exists a b : R, forall q, In q pts -> q <> p ->
    a * fst q + b * snd q < a * fst p + b * snd p.

Definition collinear (pts : list point) : Prop :=
  exists a b c : R, (a <> 0 \/ b <> 0) /\
    forall q, In q pts -> a * fst q + b * snd q = c.

Definition hull_contract (pts : list point) (r : result (list nat)) : Prop :=
  match r with
  | Raise _ => True
  | Ok vertices =>
      exists hull_points,
        take_rows pts vertices = Ok hull_points /\
        (3 <= length hull_points)%nat /\
        List.NoDup hull_points /\
        List.Forall (is_vertex pts) hull_points
  end.

(** ** Inputs of the examples *)

(** Two statements and one participant who cast three votes. *)
Definition long_ballot : document :=
  {| statements := ["s1"; "s2"];
     votes := [("alice", ["agree"; "agree"; "disagree"])] |}.

(** Two participants who cast two votes and one vote. *)
Definition ragged_ballots : document :=
  {| statements := ["s1"; "s2"];
     votes := [("alice", ["agree"; "disagree"]); ("bob", ["agree"])] |}.

(** Two statements, three participants, two votes each. *)
Definition three_ballots : document :=
  {| statements := ["s1"; "s2"];
     votes := [("alice", ["agree"; "disagree"]);
               ("bob", ["agree"; "agree"]);
               ("carol", ["disagree"; "disagree"])] |}.

(** Three points on one line, as one cluster. *)
Definition points_on_a_line : list point := [(0, 0); (1, 1); (2, 2)].

(** A triangle, and a hull computation that answers: the three points, in
    their order. *)
Definition triangle : list point := [(0, 0); (3, 0); (0, 3)].

Definition triangle_hull (_ : list point) : result (list nat) :=
  Ok [0; 1; 2]%nat.

(** Stand-ins for the libraries, for runs of [main] in the examples. *)
Definition no_jitter (s : unit) : R * unit := (0, s).
Definition no_hull (_ : list point) : result (list nat) := Raise QhullError.
Definition no_analyzer (_ : matrix) (_ : list string) : result analysis :=
  Raise (OtherError "no analyzer").
Definition file_written (_ : string) : result unit := Ok tt.
Definition figure_shown : result unit := Ok tt.

(** [Path(f).with_suffix(ext)] on a plain path: the part of the last
    component from its last dot on is replaced by [ext], when that dot is
    neither the first nor the last character of the component; otherwise
    [ext] is appended.  [split_suffix] reads the path backwards and returns
    what precedes that dot. *)
Fixpoint split_suffix (rev_name : list ascii) (seen : nat)
  : option (list ascii) :=
  match rev_name with
  | [] => None
  | c :: rest =>
      if Ascii.eqb c "/" then None
      else if Ascii.eqb c "." then
        match seen, rest with
        | O, _ => None
        | _, [] => None
        | _, c' :: _ => if Ascii.eqb c' "/" then None else Some rest
        end
      else split_suffix rest (S seen)
  end.

Definition replace_suffix (f ext : string) : string :=
  match split_suffix (rev (list_ascii_of_string f)) 0 with
  | Some rev_stem => string_of_list_ascii (rev rev_stem) ++ ext
  | None => f ++ ext
  end.

(** Three points that are not on one line, but nearly so, and the answer of
    Qhull on them: the initial simplex is flat within its precision. *)
Definition sliver : list point := [(0, 0); (1, 1e-20); (2, 0)].

Definition qhull_on_sliver (_ : list point) : result (list nat) :=
  Raise QhullError.

(** ** The command line (lines 95 to 101) *)

Definition usage : string := "Usage: python plot_opinions.py input.yaml".

(** [sys.exit(1)] raises [SystemExit]. *)
Definition system_exit : exn := OtherError "SystemExit(1)".

(** The block under [if __name__ == "__main__"], on [sys.argv]. *)
Definition cli (rng_state : Type) (draw : rng_state -> R * rng_state)
    (ConvexHull : list point -> result (list nat))
    (analyze : matrix -> list string -> result analysis)
    (safe_load : string -> result document)
    (with_suffix : string -> string -> string)
    (savefig : string -> result unit) (show : result unit)
    (argv : list string) : M rng_state unit :=
  if negb (Nat.eqb (length argv) 2)
  then bind (emit (Stdout usage)) (fun _ => lift (Raise system_exit))
  else match argv !! 1%nat with
       | Some yaml_file =>
           main rng_state draw ConvexHull analyze safe_load with_suffix
                savefig show yaml_file
       | None => lift (Raise IndexError)
       end.

(** ** Notions for the traces of a run *)

(** What the hull loop draws for one label: one patch when the cluster has a
    boundary, nothing otherwise. *)
Definition patch_of (ConvexHull : list point -> result (list nat))
    (pts : list point) (cl : list Z) (c : Z) : list event :=
  match mask_index pts cl c with
  | Ok cp =>
      match cluster_boundary ConvexHull cp with
      | Ok (Some polygon) => [AddPatch polygon (cluster_color c cl)]
      | _ => []
      end
  | Raise _ => []
  end.

(** What the end of the plot does with the figure. *)
Definition save_events (output_path : option string) : list event :=
  match output_path with
  | Some path =>
      if String.eqb path "" then [ShowFigure]
      else [Savefig path; Stdout ("Plot saved to " ++ path)]
  | None => [ShowFigure]
  end.



(** What saving or showing the figure returns, by the cases of
    [save_or_show]. *)
Definition save_result (savefig : string -> result unit)
    (show : result unit) (output_path : option string) : result unit :=
  match output_path with
  | Some path => if String.eqb path "" then show else savefig path
  | None => show
  end.


(** The generator after [k] draws. *)
Fixpoint advance {S : Type} (draw : S -> R * S) (k : nat) (s : S) : S :=
  match k with
  | O => s
  | S k' => advance draw k' (snd (draw s))
  end.


(** The points of one cluster, as the hull loop selects them. *)
Definition cluster_points (pts : list point) (cl : list Z) (c : Z)
  : list point :=
  select_rows pts (map (fun c' => (c' =? c)%Z) cl).

(** A point moved by the vector [t]. *)
Definition shift (t p : point) : point := (fst p + fst t, snd p + snd t).

(** An analyzer that answers three points in two clusters. *)
Definition three_points : analysis :=
  {| points_2d := [(0, 0); (1, 2); (2, 1)]; clusters := [0; 0; 1]%Z |}.

Definition fixed_analyzer (_ : matrix) (_ : list string) : result analysis :=
  Ok three_points.

(** * Part III: properties *)

(** ** The monad *)

Section MonadLaws.

Context {rng_state : Type}.
Implicit Types s : rng_state.

Lemma bind_lift_ok {A B : Type} (a : A) (k : A -> M rng_state B) s :
  bind (lift (Ok a)) k s = k a s.
Proof.
  unfold bind, lift. destruct (k a s) as [[r ev] s']. reflexivity.
Qed.

Lemma bind_lift_raise {A B : Type} (e : exn) (k : A -> M rng_state B) s :
  bind (lift (Raise e)) k s = (Raise e, [], s).
Proof. reflexivity. Qed.

Lemma bind_emit {B : Type} (e : event) (k : unit -> M rng_state B) s :
  bind (emit e) k s =
  (outcome (k tt s), e :: events (k tt s), final (k tt s)).
Proof.
  unfold bind, emit. destruct (k tt s) as [[r ev] s']. reflexivity.
Qed.

Lemma bind_raise {A B : Type} (c : M rng_state A) (k : A -> M rng_state B)
    s (e : exn) :
  outcome (c s) = Raise e ->
  bind c k s = (Raise e, events (c s), final (c s)).
Proof.
  unfold bind, outcome, events, final.
  destruct (c s) as [[r ev] s']. simpl. intros ->. reflexivity.
Qed.

Lemma bind_ok {A B : Type} (c : M rng_state A) (k : A -> M rng_state B)
    s (a : A) :
  outcome (c s) = Ok a ->
  bind c k s = (outcome (k a (final (c s))),
                (events (c s) ++ events (k a (final (c s))))%list,
                final (k a (final (c s)))).
Proof.
  unfold bind, outcome, events, final.
  destruct (c s) as [[r ev] s']. simpl. intros ->.
  destruct (k a s') as [[r' ev'] s'']. reflexivity.
Qed.

Lemma free_ret {A : Type} (a : A) :
  generator_free (ret (rng_state := rng_state) a).
Proof. intros s s'. repeat split. Qed.

Lemma free_lift {A : Type} (r : result A) :
  generator_free (lift (rng_state := rng_state) r).
Proof. intros s s'. repeat split. Qed.

Lemma free_emit (e : event) : generator_free (emit (rng_state := rng_state) e).
Proof. intros s s'. repeat split. Qed.

Lemma free_bind {A B : Type} (c : M rng_state A) (k : A -> M rng_state B) :
  generator_free c -> (forall a, generator_free (k a)) ->
  generator_free (bind c k).
Proof.
  intros Hc Hk s s'.
  destruct (Hc s s') as [Ho [He Hs]].
  destruct (Hc s' s) as [_ [_ Hs']].
  destruct (outcome (c s)) as [a|e] eqn:Hout.
  - rewrite (bind_ok c k s a Hout).
    rewrite (bind_ok c k s' a) by congruence.
    rewrite Hs, Hs'. destruct (Hk a s s') as [Ho' [He' Hs'']].
    unfold outcome, events, final in *. simpl. rewrite He.
    repeat split; congruence.
  - rewrite (bind_raise c k s e Hout).
    rewrite (bind_raise c k s' e) by congruence.
    unfold outcome, events, final in *. simpl. repeat split; congruence.
Qed.

Lemma free_for_each {A : Type} (l : list A) (body : A -> M rng_state unit) :
  (forall a, generator_free (body a)) -> generator_free (for_each l body).
Proof.
  intros Hb. induction l as [|a l IH]; simpl.
  - apply free_ret.
  - apply free_bind; [apply Hb | intros _; exact IH].
Qed.

(** A loop whose passes leave the generator alone raises what its first
    failing pass raises. *)
Lemma for_each_raise {A : Type} (l : list A)
    (body : A -> M rng_state unit) s (a : A) (e : exn) :
  (forall x, generator_free (body x)) ->
  In a l -> outcome (body a s) = Raise e ->
  exists a' e',
    In a' l /\ outcome (body a' s) = Raise e' /\
    outcome (for_each l body s) = Raise e' /\
    final (for_each l body s) = s /\
    forall ev, In ev (events (for_each l body s)) ->
               exists x, In x l /\ In ev (events (body x s)).
Proof.
  intros Hfree. induction l as [|x l IH]; intros Ha He; [contradiction|].
  simpl for_each.
  destruct (outcome (body x s)) as [[]|e0] eqn:Hx.
  - destruct (Hfree x s s) as [_ [_ Hs]].
    rewrite (bind_ok _ _ s tt Hx), Hs.
    destruct Ha as [->|Ha]; [congruence|].
    destruct (IH Ha He) as [a' [e' [Hin [Hb [Ho [Hf Hev]]]]]].
    exists a', e'.
    split; [right; exact Hin|]. split; [exact Hb|].
    split; [exact Ho|]. split; [exact Hf|].
    intros ev Hin'. change (In ev (events (body x s)
                              ++ events (for_each l body s))%list) in Hin'.
    apply in_app_or in Hin'. destruct Hin' as [Hin'|Hin'].
    + exists x. split; [left; reflexivity | exact Hin'].
    + destruct (Hev ev Hin') as [y [Hy Hy']].
      exists y. split; [right; exact Hy | exact Hy'].
  - destruct (Hfree x s s) as [_ [_ Hs]].
    rewrite (bind_raise _ _ s e0 Hx), Hs.
    exists x, e0.
    split; [left; reflexivity|]. split; [exact Hx|].
    split; [reflexivity|]. split; [reflexivity|].
    intros ev Hin'. exists x. split; [left; reflexivity | exact Hin'].
Qed.

End MonadLaws.

(** [np.random.normal] returns as many rows as it is asked for, so adding
    the jitter keeps every point. *)
Lemma normal_rows (rng_state : Type) (draw : rng_state -> R * rng_state)
    (n : nat) (s : rng_state) :
  exists l, outcome (normal rng_state draw n s) = Ok l /\
            events (normal rng_state draw n s) = [] /\ length l = n.
Proof.
  revert s. induction n as [|n IH]; intros s.
  - exists []. repeat split.
  - cbn [normal]. unfold bind, random, ret.
    destruct (draw s) as [a s1]. destruct (draw s1) as [b s2].
    destruct (IH s2) as [l [Ho [He Hl]]].
    destruct (normal rng_state draw n s2) as [[r ev] s3].
    unfold outcome, events in Ho, He. simpl in Ho, He. subst r ev.
    exists ((a, b) :: l). simpl. rewrite Hl.
    split; [reflexivity|]. split; reflexivity.
Qed.

Lemma add_jitter_length (pts jitter : list point) :
  length jitter = length pts -> length (add_jitter pts jitter) = length pts.
Proof.
  unfold add_jitter. revert jitter.
  induction pts as [|p pts IH]; intros [|j jitter] H; simpl in *;
    try reflexivity; try discriminate.
  rewrite IH by lia. reflexivity.
Qed.

(** ** Vote matrix builder *)

Lemma np_array_rows (l : list (list Z)) (m : matrix) :
  np_array l = Ok m -> rows m = l.
Proof.
  destruct l as [|r rs]; simpl.
  - intros H. inversion H. reflexivity.
  - destruct (forallb _ rs); intros H; inversion H. reflexivity.
Qed.

Lemma np_array_uniform (l : list (list Z)) (k : nat) :
  (forall r, In r l -> length r = k) -> exists m, np_array l = Ok m.
Proof.
  intros Hk. destruct l as [|r rs]; simpl.
  - eexists. reflexivity.
  - replace (forallb _ rs) with true; [eexists; reflexivity|].
    symmetry. apply forallb_forall. intros r' Hr'.
    apply Nat.eqb_eq. rewrite (Hk r), (Hk r'); simpl; auto.
Qed.

Lemma np_array_ragged (l : list (list Z)) (r1 r2 : list Z) :
  In r1 l -> In r2 l -> length r1 <> length r2 ->
  np_array l = Raise ValueError.
Proof.
  intros H1 H2 Hne. destruct l as [|r rs]; [contradiction|].
  simpl. destruct (forallb _ rs) eqn:Hall; [|reflexivity].
  exfalso. rewrite forallb_forall in Hall.
  assert (Hlen : forall r', In r' (r :: rs) -> length r' = length r).
  { intros r' [<-|Hr']; [reflexivity|]. apply Nat.eqb_eq, Hall, Hr'. }
  apply Hne. rewrite (Hlen r1 H1), (Hlen r2 H2). reflexivity.
Qed.

Lemma vote_row_length (user_votes : list string) :
  length (vote_row user_votes) = length user_votes.
Proof. apply length_map. Qed.

Lemma vote_rows_lengths (data : document) :
  Forall2 (fun row kv => length row = length (snd kv))
          (vote_rows data) (votes data).
Proof.
  unfold vote_rows. induction (votes data) as [|kv l IH]; simpl.
  - constructor.
  - constructor; [apply vote_row_length | exact IH].
Qed.

Lemma vote_value_other (v : string) :
  v <> "agree" -> v <> "disagree" -> vote_value v = 0%Z.
Proof.
  intros Ha Hd. unfold vote_value, vote_map.
  rewrite lookup_insert_ne by congruence.
  rewrite lookup_insert_ne by congruence.
  rewrite lookup_empty. reflexivity.
Qed.

Lemma vote_value_cases (v : string) :
  vote_value v
  = if String.eqb v "agree" then 1%Z
    else if String.eqb v "disagree" then (-1)%Z else 0%Z.
Proof.
  destruct (String.eqb_spec v "agree") as [->|Ha]; [reflexivity|].
  destruct (String.eqb_spec v "disagree") as [->|Hd]; [reflexivity|].
  apply vote_value_other; assumption.
Qed.

(** C5.  The token "agree" is mapped to +1, "disagree" to -1 and every
    other token, the empty string and misspellings among them, to 0.  The
    builder maps every ballot token by token: a row has the length of its
    ballot and its i-th entry is the value of the ballot's i-th token, and
    the i-th row of the matrix is the row of the i-th participant's ballot;
    the row built from agree, disagree, maybe is 1, -1, 0. *)
Theorem vote_lexicon :
  vote_value "agree" = 1%Z /\
  vote_value "disagree" = (-1)%Z /\
  (forall v : string, v <> "agree" -> v <> "disagree" -> vote_value v = 0%Z) /\
  vote_value "" = 0%Z /\
  vote_row ["agree"; "disagree"; "maybe"] = [1; -1; 0]%Z /\
  (forall user_votes : list string,
     length (vote_row user_votes) = length user_votes /\
     forall (i : nat) (v : string), user_votes !! i = Some v ->
       vote_row user_votes !! i
       = Some (if String.eqb v "agree" then 1%Z
               else if String.eqb v "disagree" then (-1)%Z else 0%Z)) /\
  (forall (data : document) st m us (i : nat) kv,
     build data = Ok (st, m, us) -> votes data !! i = Some kv ->
     rows m !! i = Some (vote_row (snd kv))).
Proof.
  split; [reflexivity|]. split; [reflexivity|].
  split; [exact vote_value_other|]. split; [reflexivity|].
  split; [reflexivity|]. split.
  - intros user_votes. split; [apply vote_row_length|].
    intros i v Hv. unfold vote_row.
    rewrite list_lookup_fmap, Hv. simpl. rewrite vote_value_cases.
    reflexivity.
  - intros data st m us i kv Hb Hkv. unfold build in Hb.
    destruct (np_array (vote_rows data)) as [m'|e] eqn:Harr; [|discriminate].
    inversion Hb; subst. apply np_array_rows in Harr.
    rewrite Harr. unfold vote_rows. rewrite list_lookup_fmap, Hkv.
    reflexivity.
Qed.

Lemma vote_lexicon_witness :
  ("agre" <> "agree" /\ "agre" <> "disagree" /\ vote_value "agre" = 0%Z) /\
  vote_row ["disagree"; "agre"; "agree"] !! 2%nat = Some 1%Z /\
  rows {| n_rows := 3; n_cols := 2;
          rows := [[1; -1]; [1; 1]; [-1; -1]]%Z |} !! 1%nat
  = Some (vote_row ["agree"; "agree"]).
Proof.
  split; [|split].
  - split; [discriminate|]. split; [discriminate|].
    apply (proj1 (proj2 (proj2 vote_lexicon))); discriminate.
  - exact (proj2 (proj1 (proj2 (proj2 (proj2 (proj2 (proj2 vote_lexicon)))))
                    ["disagree"; "agre"; "agree"])
             2%nat "agree" eq_refl).
  - exact (proj2 (proj2 (proj2 (proj2 (proj2 (proj2 vote_lexicon)))))
             three_ballots ["s1"; "s2"]
             {| n_rows := 3; n_cols := 2;
                rows := [[1; -1]; [1; 1]; [-1; -1]]%Z |}
             ["alice"; "bob"; "carol"] 1%nat ("bob", ["agree"; "agree"])
             eq_refl eq_refl).
Defined.

(** ** The pipeline and malformed ballots *)

Section MainRuns.

Variable rng_state : Type.
Variable draw : rng_state -> R * rng_state.
Variable ConvexHull : list point -> result (list nat).
Variable analyze : matrix -> list string -> result analysis.
Variable safe_load : string -> result document.
Variable with_suffix : string -> string -> string.
Variable savefig : string -> result unit.
Variable show : result unit.

Let run_main :=
  main rng_state draw ConvexHull analyze safe_load with_suffix savefig show.

Lemma main_load_fails (f : string) (data : document) (e : exn) s :
  safe_load f = Ok data -> build data = Raise e ->
  run_main f s = (Raise e, [], s).
Proof.
  intros Hload Hbuild. unfold run_main, main, load_from_yaml.
  rewrite Hload. simpl. rewrite Hbuild. reflexivity.
Qed.

Lemma main_calls_analyzer (f : string) (data : document)
    st m us s :
  safe_load f = Ok data -> build data = Ok (st, m, us) ->
  exists evs, events (run_main f s) = Analyze m st :: evs.
Proof.
  intros Hload Hbuild. unfold run_main, main, load_from_yaml.
  rewrite Hload. simpl. rewrite Hbuild.
  rewrite bind_lift_ok, bind_emit. eexists. reflexivity.
Qed.

End MainRuns.

(** C1, as stated, fails: a participant with three votes on two statements
    does not stop the pipeline, the analyzer is called with a matrix of one
    row and three columns. *)
Lemma long_ballot_reaches_analyzer :
  (exists kv, In kv (votes long_ballot) /\
     length (snd kv) <> length (statements long_ballot)) /\
  forall (rng_state : Type) draw ConvexHull analyze with_suffix savefig show
         (s : rng_state),
  exists evs,
    events (main rng_state draw ConvexHull analyze
              (fun _ => Ok long_ballot) with_suffix savefig show
              "poll.yaml" s)
    = Analyze {| n_rows := 1; n_cols := 3; rows := [[1; 1; -1]%Z] |}
              ["s1"; "s2"] :: evs.
Proof.
  split.
  - exists ("alice", ["agree"; "agree"; "disagree"]).
    split; [left; reflexivity | simpl; lia].
  - intros. eapply main_calls_analyzer with (data := long_ballot);
      reflexivity.
Qed.

(** C1, amended.  The builder never pads or truncates: when it succeeds,
    every row of the matrix has exactly the entries of that participant's
    vote sequence, and the statements are passed on unchanged.  The vote
    sequences are compared with one another, not with the statements: when
    two participants' sequences differ in length, building the array raises
    ValueError and the pipeline ends before the analyzer is called; when all
    sequences have one length, whatever the number of statements, the matrix
    is built and the analyzer is called with it. *)
Theorem ballots_never_padded
    (rng_state : Type) (draw : rng_state -> R * rng_state)
    (ConvexHull : list point -> result (list nat))
    (analyze : matrix -> list string -> result analysis)
    (safe_load : string -> result document)
    (with_suffix : string -> string -> string)
    (savefig : string -> result unit) (show : result unit)
    (f : string) (data : document) :
  safe_load f = Ok data ->
  (forall st m us, build data = Ok (st, m, us) ->
     st = statements data /\ us = map fst (votes data) /\
     rows m = map (fun kv => map vote_value (snd kv)) (votes data) /\
     Forall2 (fun row kv => length row = length (snd kv))
             (rows m) (votes data)) /\
  (forall kv1 kv2, In kv1 (votes data) -> In kv2 (votes data) ->
     length (snd kv1) <> length (snd kv2) ->
     forall s, main rng_state draw ConvexHull analyze safe_load with_suffix
                    savefig show f s
               = (Raise ValueError, [], s)) /\
  (forall k, (forall kv, In kv (votes data) -> length (snd kv) = k) ->
     exists m, build data = Ok (statements data, m, map fst (votes data)) /\
       forall s, exists evs,
         events (main rng_state draw ConvexHull analyze safe_load
                      with_suffix savefig show f s)
         = Analyze m (statements data) :: evs).
Proof.
  intros Hload. split; [|split].
  - intros st m us Hb. unfold build in Hb.
    destruct (np_array (vote_rows data)) as [m'|e] eqn:Harr; [|discriminate].
    inversion Hb; subst. apply np_array_rows in Harr.
    repeat split; try reflexivity.
    + exact Harr.
    + rewrite Harr. apply vote_rows_lengths.
  - intros kv1 kv2 H1 H2 Hne s.
    apply main_load_fails with (data := data); [exact Hload|].
    unfold build.
    rewrite (np_array_ragged (vote_rows data)
               (vote_row (snd kv1)) (vote_row (snd kv2))).
    + reflexivity.
    + unfold vote_rows. apply in_map_iff. exists kv1. auto.
    + unfold vote_rows. apply in_map_iff. exists kv2. auto.
    + rewrite !vote_row_length. exact Hne.
  - intros k Hk.
    destruct (np_array_uniform (vote_rows data) k) as [m Hm].
    { unfold vote_rows. intros r Hr. apply in_map_iff in Hr.
      destruct Hr as [kv [<- Hkv]]. rewrite vote_row_length. auto. }
    exists m. assert (Hb : build data
                = Ok (statements data, m, map fst (votes data))).
    { unfold build. rewrite Hm. reflexivity. }
    split; [exact Hb|]. intros s.
    eapply main_calls_analyzer; eauto.
Qed.

Lemma ballots_never_padded_witness :
  main unit no_jitter no_hull no_analyzer (fun _ => Ok ragged_ballots)
       replace_suffix file_written figure_shown "poll.yaml" tt
  = (Raise ValueError, [], tt) /\
  exists m,
    build three_ballots
    = Ok (["s1"; "s2"], m, ["alice"; "bob"; "carol"]) /\
    rows m = [[1; -1]; [1; 1]; [-1; -1]]%Z.
Proof.
  split.
  - refine (proj1 (proj2 (ballots_never_padded unit no_jitter no_hull
              no_analyzer (fun _ => Ok ragged_ballots) replace_suffix
              file_written figure_shown "poll.yaml"
              ragged_ballots eq_refl))
            ("alice", ["agree"; "disagree"]) ("bob", ["agree"]) _ _ _ tt).
    + left. reflexivity.
    + right. left. reflexivity.
    + simpl. lia.
  - pose proof (ballots_never_padded unit no_jitter no_hull no_analyzer
                  (fun _ => Ok three_ballots) replace_suffix
                  file_written figure_shown "poll.yaml"
                  three_ballots eq_refl) as [Hrows [_ Huniform]].
    destruct (Huniform 2%nat) as [m [Hm _]].
    + intros kv [<-|[<-|[<-|[]]]]; reflexivity.
    + exists m. split; [exact Hm|].
      exact (proj1 (proj2 (proj2 (Hrows _ _ _ Hm)))).
Defined.

(** ** Colours of the hull overlays *)

Lemma position_consecutive (K s i : nat) :
  (i < K)%nat ->
  position (Z.of_nat (s + i)) (map Z.of_nat (seq s K)) = Some i.
Proof.
  revert s i. induction K as [|K IH]; intros s i Hi; [lia|].
  simpl. destruct i as [|i].
  - rewrite Nat.add_0_r, Z.eqb_refl. reflexivity.
  - replace (Z.of_nat (s + S i) =? Z.of_nat s)%Z with false
      by (symmetry; apply Z.eqb_neq; lia).
    replace (s + S i)%nat with (S s + i)%nat by lia.
    rewrite IH by lia. reflexivity.
Qed.

Lemma in_consecutive (K : nat) (c : Z) :
  In c (map Z.of_nat (seq 0 K)) -> exists r, (r < K)%nat /\ c = Z.of_nat r.
Proof.
  intros H. apply in_map_iff in H. destruct H as [r [<- Hr]].
  apply in_seq in Hr. exists r. split; [lia | reflexivity].
Qed.

(** Inside the unit interval the colour is the integer quotient. *)
Lemma viridis_fraction (a K : Z) :
  (0 <= a < K)%Z ->
  viridis (inject_Z a / inject_Z K) = (a * 256 / K)%Z.
Proof.
  intros [Ha HK]. unfold viridis.
  assert (HKq : (0 < inject_Z K)%Q).
  { replace 0%Q with (inject_Z 0) by reflexivity. rewrite <- Zlt_Qlt. lia. }
  assert (H0 : (0 <= inject_Z a / inject_Z K)%Q).
  { apply Qle_shift_div_l; [exact HKq|]. rewrite Qmult_0_l.
    replace 0%Q with (inject_Z 0) by reflexivity. rewrite <- Zle_Qle. lia. }
  assert (H1 : (inject_Z a / inject_Z K < 1)%Q).
  { apply Qlt_shift_div_r; [exact HKq|]. rewrite Qmult_1_l.
    rewrite <- Zlt_Qlt. lia. }
  apply Qle_bool_iff in H0. rewrite H0. cbn [negb].
  destruct (Qle_bool 1 (inject_Z a / inject_Z K)) eqn:Hle.
  - apply Qle_bool_iff in Hle. exfalso.
    exact (Qlt_irrefl 1 (Qle_lt_trans _ _ _ Hle H1)).
  - transitivity (Qfloor (inject_Z (a * 256) / inject_Z K));
      [|symmetry; apply Zdiv_Qdiv].
    apply Qfloor_comp. rewrite inject_Z_mult. unfold Qdiv.
    replace (inject_Z 256) with 256%Q by reflexivity. ring.
Qed.

Lemma quotients_apart (a b K : Z) :
  (0 <= a < b)%Z -> (0 < K <= 256)%Z -> (a * 256 / K < b * 256 / K)%Z.
Proof.
  intros Hab HK.
  apply Z.lt_le_trans with ((a * 256 + 1 * K) / K)%Z.
  - rewrite Z.div_add by lia. lia.
  - apply Z.div_le_mono; lia.
Qed.

(** C2, as stated, fails: with the labels 2 and 3 the colormap is not read
    at the normalized ranks 0/2 and 1/2 but at 2/2 and 3/2, and both
    clusters get the last colour of the table. *)
Lemma colors_follow_label_value :
  let cl := [2; 2; 2; 3; 3; 3]%Z in
  np_unique cl = [2; 3]%Z /\
  rank 2 cl = Some 0%nat /\ rank 3 cl = Some 1%nat /\
  (color_arg 2 cl == 1)%Q /\ (color_arg 3 cl == 3 # 2)%Q /\
  2%Z <> 3%Z /\ cluster_color 2 cl = cluster_color 3 cl.
Proof.
  simpl. repeat split; try reflexivity. discriminate.
Qed.

(** C2, amended.  The colour of a cluster's overlay is a function of its
    label: the colormap is read at the label's value divided by the number
    of distinct labels.  When the distinct labels are 0, 1, ..., K-1, the
    value of a label is its rank, the colormap is read at rank/K, and for up
    to 256 clusters distinct labels get distinct colours. *)
Theorem colors_of_consecutive_labels (cl : list Z) (K : nat) :
  np_unique cl = map Z.of_nat (seq 0 K) -> (K <= 256)%nat ->
  (forall c, In c (np_unique cl) ->
     exists r, rank c cl = Some r /\ c = Z.of_nat r /\
       (color_arg c cl
        == inject_Z (Z.of_nat r) / inject_Z (Z.of_nat K))%Q) /\
  (forall a b, In a (np_unique cl) -> In b (np_unique cl) -> a <> b ->
     cluster_color a cl <> cluster_color b cl).
Proof.
  intros Hu HK.
  assert (Hlen : length (np_unique cl) = K).
  { rewrite Hu, length_map, length_seq. reflexivity. }
  split.
  - intros c Hc. rewrite Hu in Hc.
    destruct (in_consecutive K c Hc) as [r [Hr ->]].
    exists r. split; [|split].
    + unfold rank. rewrite Hu.
      exact (position_consecutive K 0 r Hr).
    + reflexivity.
    + unfold color_arg. rewrite Hlen. reflexivity.
  - intros a b Ha Hb Hne. rewrite Hu in Ha, Hb.
    destruct (in_consecutive K a Ha) as [i [Hi ->]].
    destruct (in_consecutive K b Hb) as [j [Hj ->]].
    unfold cluster_color, color_arg. rewrite Hlen.
    rewrite !viridis_fraction by lia.
    assert (Hij : (i < j \/ j < i)%nat) by lia.
    destruct Hij as [Hlt|Hlt].
    + pose proof (quotients_apart (Z.of_nat i) (Z.of_nat j) (Z.of_nat K)).
      lia.
    + pose proof (quotients_apart (Z.of_nat j) (Z.of_nat i) (Z.of_nat K)).
      lia.
Qed.

Lemma colors_of_consecutive_labels_witness :
  cluster_color 0 [0; 1; 1; 0; 2]%Z <> cluster_color 2 [0; 1; 1; 0; 2]%Z.
Proof.
  refine (proj2 (colors_of_consecutive_labels [0; 1; 1; 0; 2]%Z 3 eq_refl _)
            0%Z 2%Z _ _ _).
  - lia.
  - left. reflexivity.
  - right. right. left. reflexivity.
  - discriminate.
Defined.

(** ** Viewport *)

Lemma fold_min_le_init (l : list R) (x : R) : fold_left Rmin l x <= x.
Proof.
  revert x. induction l as [|y l IH]; intros x; simpl; [lra|].
  eapply Rle_trans; [apply IH | apply Rmin_l].
Qed.

Lemma fold_min_le_in (l : list R) (x y : R) :
  In y l -> fold_left Rmin l x <= y.
Proof.
  revert x. induction l as [|z l IH]; intros x Hy; simpl; [contradiction|].
  destruct Hy as [->|Hy].
  - eapply Rle_trans; [apply fold_min_le_init | apply Rmin_r].
  - apply IH, Hy.
Qed.

Lemma fold_max_ge_init (l : list R) (x : R) : x <= fold_left Rmax l x.
Proof.
  revert x. induction l as [|y l IH]; intros x; simpl; [lra|].
  eapply Rle_trans; [apply Rmax_l | apply IH].
Qed.

Lemma fold_max_ge_in (l : list R) (x y : R) :
  In y l -> y <= fold_left Rmax l x.
Proof.
  revert x. induction l as [|z l IH]; intros x Hy; simpl; [contradiction|].
  destruct Hy as [->|Hy].
  - eapply Rle_trans; [apply Rmax_r | apply fold_max_ge_init].
  - apply IH, Hy.
Qed.

Lemma np_min_le (l : list R) (m y : R) : np_min l = Ok m -> In y l -> m <= y.
Proof.
  destruct l as [|x l]; simpl; [discriminate|].
  intros H Hy. inversion H; subst. destruct Hy as [->|Hy].
  - apply fold_min_le_init.
  - apply fold_min_le_in, Hy.
Qed.

Lemma np_max_ge (l : list R) (m y : R) : np_max l = Ok m -> In y l -> y <= m.
Proof.
  destruct l as [|x l]; simpl; [discriminate|].
  intros H Hy. inversion H; subst. destruct Hy as [->|Hy].
  - apply fold_max_ge_init.
  - apply fold_max_ge_in, Hy.
Qed.

(** C6.  For a point set of positive span on each axis, the limits of an
    axis are its minimum minus 20% of its span and its maximum plus 20% of
    its span, and every plotted point lies within them. *)
Theorem viewport_contains_points
    (pts : list point) (x_min x_max y_min y_max : R) :
  np_min (map fst pts) = Ok x_min -> np_max (map fst pts) = Ok x_max ->
  np_min (map snd pts) = Ok y_min -> np_max (map snd pts) = Ok y_max ->
  x_min < x_max -> y_min < y_max ->
  view_limits pts =
    Ok {| xlim := (x_min - (x_max - x_min) * 0.2,
                   x_max + (x_max - x_min) * 0.2);
          ylim := (y_min - (y_max - y_min) * 0.2,
                   y_max + (y_max - y_min) * 0.2) |} /\
  Forall (fun p =>
            x_min - 0.2 * (x_max - x_min) <= fst p
              <= x_max + 0.2 * (x_max - x_min) /\
            y_min - 0.2 * (y_max - y_min) <= snd p
              <= y_max + 0.2 * (y_max - y_min)) pts.
Proof.
  intros Hxmin Hxmax Hymin Hymax Hx Hy. split.
  - unfold view_limits. rewrite Hxmin, Hxmax, Hymin, Hymax. reflexivity.
  - apply List.Forall_forall. intros p Hp.
    pose proof (np_min_le _ _ (fst p) Hxmin (in_map fst _ _ Hp)).
    pose proof (np_max_ge _ _ (fst p) Hxmax (in_map fst _ _ Hp)).
    pose proof (np_min_le _ _ (snd p) Hymin (in_map snd _ _ Hp)).
    pose proof (np_max_ge _ _ (snd p) Hymax (in_map snd _ _ Hp)).
    lra.
Qed.

Lemma viewport_contains_points_witness :
  view_limits [(0, 0); (1, 2)] =
    Ok {| xlim := (0 - (1 - 0) * 0.2, 1 + (1 - 0) * 0.2);
          ylim := (0 - (2 - 0) * 0.2, 2 + (2 - 0) * 0.2) |}.
Proof.
  refine (proj1 (viewport_contains_points [(0, 0); (1, 2)] 0 1 0 2
                   _ _ _ _ _ _)).
  - simpl. f_equal. apply Rmin_left. lra.
  - simpl. f_equal. apply Rmax_right. lra.
  - simpl. f_equal. apply Rmin_left. lra.
  - simpl. f_equal. apply Rmax_right. lra.
  - lra.
  - lra.
Defined.

(** ** Runs of [plot_opinion_clusters] *)

Section PlotRuns.

Context {rng_state : Type}.
Variable ConvexHull : list point -> result (list nat).
Variable savefig : string -> result unit.
Variable show : result unit.
Implicit Types (s : rng_state) (pts : list point) (cl : list Z).

Let hull := draw_hull rng_state ConvexHull.
Let plot := plot_opinion_clusters rng_state ConvexHull savefig show.

Lemma free_draw_hull pts cl c : generator_free (hull pts cl c).
Proof.
  unfold hull, draw_hull.
  apply free_bind; [apply free_lift | intros cp].
  apply free_bind; [apply free_lift | intros [polygon|]].
  - apply free_emit.
  - apply free_ret.
Qed.

Lemma free_plot pts cl us out : generator_free (plot pts cl us out).
Proof.
  unfold plot, plot_opinion_clusters.
  apply free_bind; [apply free_emit | intros _].
  apply free_bind;
    [apply free_for_each; intros c; apply free_draw_hull | intros _].
  apply free_bind.
  { unfold scatter. destruct (_ || _);
      [apply free_emit | apply free_lift]. }
  intros _. apply free_bind.
  { apply free_for_each. intros iu. unfold annotate.
    destruct (pts !! fst iu); [apply free_emit | apply free_lift]. }
  intros _. apply free_bind; [apply free_lift | intros lim].
  apply free_bind; [apply free_emit | intros _].
  apply free_bind; [apply free_emit | intros _].
  apply free_bind; [|intros _; apply free_emit].
  unfold save_or_show.
  assert (Hshow : generator_free
            (bind (lift (rng_state := rng_state) show)
                  (fun _ => emit ShowFigure))).
  { apply free_bind; [apply free_lift | intros _; apply free_emit]. }
  destruct out as [path|]; [|exact Hshow].
  destruct (String.eqb path ""); [exact Hshow|].
  apply free_bind; [apply free_lift | intros _].
  apply free_bind; [apply free_emit | intros _; apply free_emit].
Qed.

(** What one pass of the loop does, by the cases of the source. *)
Lemma draw_hull_cases pts cl c s :
  match mask_index pts cl c with
  | Raise e => hull pts cl c s = (Raise e, [], s)
  | Ok cp =>
      match cluster_boundary ConvexHull cp with
      | Raise e => hull pts cl c s = (Raise e, [], s)
      | Ok None => hull pts cl c s = (Ok tt, [], s)
      | Ok (Some polygon) =>
          hull pts cl c s
          = (Ok tt, [AddPatch polygon (cluster_color c cl)], s)
      end
  end.
Proof.
  unfold hull, draw_hull.
  destruct (mask_index pts cl c) as [cp|e]; [|reflexivity].
  rewrite bind_lift_ok.
  destruct (cluster_boundary ConvexHull cp) as [[polygon|]|e];
    reflexivity.
Qed.

Lemma draw_hull_events pts cl c s (ev : event) :
  In ev (events (hull pts cl c s)) -> hull_event ev.
Proof.
  pose proof (draw_hull_cases pts cl c s) as H.
  destruct (mask_index pts cl c) as [cp|e].
  - destruct (cluster_boundary ConvexHull cp) as [[polygon|]|e];
      rewrite H; simpl; try contradiction.
    intros [<-|[]]. eexists _, _. reflexivity.
  - rewrite H. simpl. contradiction.
Qed.

End PlotRuns.

(** In a run of [main] that reaches the plot, the random generator ends
    where the draw of the jitter left it: nothing after the jitter draws. *)
Lemma main_draws_only_jitter
    (rng_state : Type) (draw : rng_state -> R * rng_state)
    (ConvexHull : list point -> result (list nat))
    (analyze : matrix -> list string -> result analysis)
    (safe_load : string -> result document)
    (with_suffix : string -> string -> string)
    (savefig : string -> result unit) (show : result unit)
    (f : string) (data : document) st m us (res : analysis)
    (s : rng_state) :
  safe_load f = Ok data -> build data = Ok (st, m, us) ->
  analyze m st = Ok res ->
  final (main rng_state draw ConvexHull analyze safe_load with_suffix
           savefig show f s)
  = final (normal rng_state draw (length (points_2d res)) s).
Proof.
  intros Hload Hbuild Hres. unfold main, load_from_yaml.
  rewrite Hload. cbn [rbind]. rewrite Hbuild.
  rewrite bind_lift_ok, bind_emit. unfold final at 1. cbn [snd].
  rewrite Hres, bind_lift_ok.
  destruct (normal_rows rng_state draw (length (points_2d res)) s)
    as [jitter [Hout _]].
  rewrite (bind_ok _ _ s jitter Hout). unfold final at 1. cbn [snd].
  apply (free_plot ConvexHull savefig show _ _ _ _ _
           (final (normal rng_state draw (length (points_2d res)) s))).
Qed.

Lemma mask_index_total (pts : list point) (cl : list Z) (c c' : Z)
    (cp : list point) :
  mask_index pts cl c = Ok cp -> exists cp', mask_index pts cl c' = Ok cp'.
Proof.
  unfold mask_index. destruct (Nat.eqb _ _); [|discriminate].
  intros _. eexists. reflexivity.
Qed.

(** C8.  The boundary computation has no randomness of its own: one pass of
    the hull loop, and the whole of the plot, emit the same events (the same
    polygons among them) and end the same way from any two states of the
    random generator, and leave the generator as they found it; the jitter
    is drawn before, in [main]. *)
Theorem boundary_is_deterministic
    (rng_state : Type) (ConvexHull : list point -> result (list nat))
    (savefig : string -> result unit) (show : result unit)
    (pts : list point) (cl : list Z) (us : list string)
    (out : option string) (c : Z) (s s' : rng_state) :
  let pass := draw_hull rng_state ConvexHull pts cl c in
  let plot := plot_opinion_clusters rng_state ConvexHull savefig show
                pts cl us out in
  (outcome (pass s) = outcome (pass s') /\
   events (pass s) = events (pass s') /\ final (pass s) = s) /\
  (outcome (plot s) = outcome (plot s') /\
   events (plot s) = events (plot s') /\ final (plot s) = s).
Proof.
  split.
  - apply (free_draw_hull ConvexHull pts cl c s s').
  - apply (free_plot ConvexHull savefig show pts cl us out s s').
Qed.

(** C7.  When the hull of a cluster of three or more points cannot be
    computed, the plot raises: the exception of a failed boundary
    computation reaches the caller as it is, and it is the exception of that
    cluster when no other cluster fails.  Nothing is drawn after the hull
    loop, and no figure is saved or shown. *)
Theorem degenerate_cluster_is_reported
    (rng_state : Type) (ConvexHull : list point -> result (list nat))
    (savefig : string -> result unit) (show : result unit)
    (pts : list point) (cl : list Z) (us : list string)
    (out : option string) (s : rng_state)
    (cid : Z) (cp : list point) (e : exn) :
  In cid (np_unique cl) -> mask_index pts cl cid = Ok cp ->
  (3 <= length cp)%nat -> ConvexHull cp = Raise e ->
  let run := plot_opinion_clusters rng_state ConvexHull savefig show
               pts cl us out s in
  exists e',
    outcome run = Raise e' /\
    (exists c' cp', In c' (np_unique cl) /\ mask_index pts cl c' = Ok cp' /\
                    cluster_boundary ConvexHull cp' = Raise e') /\
    Forall (fun ev => ev = Figure \/ hull_event ev) (events run) /\
    ((forall c' cp', In c' (np_unique cl) -> c' <> cid ->
        mask_index pts cl c' = Ok cp' ->
        exists b, cluster_boundary ConvexHull cp' = Ok b) ->
     e' = e).
Proof.
  intros Hin Hmask Hlen Hhull run.
  assert (Hb : cluster_boundary ConvexHull cp = Raise e).
  { unfold cluster_boundary.
    replace (3 <=? length cp)%nat with true
      by (symmetry; apply Nat.leb_le; exact Hlen).
    rewrite Hhull. reflexivity. }
  assert (Hpass : outcome (draw_hull rng_state ConvexHull pts cl cid s)
                  = Raise e).
  { pose proof (draw_hull_cases ConvexHull pts cl cid s) as H.
    rewrite Hmask, Hb in H. rewrite H. reflexivity. }
  destruct (for_each_raise (np_unique cl)
              (draw_hull rng_state ConvexHull pts cl) s cid e
              (free_draw_hull ConvexHull pts cl) Hin Hpass)
    as [c' [e' [Hc' [Hout' [Hloop [Hfin Hev]]]]]].
  assert (Hc'b : exists cp', mask_index pts cl c' = Ok cp' /\
                   cluster_boundary ConvexHull cp' = Raise e').
  { destruct (mask_index_total pts cl cid c' cp Hmask) as [cp' Hm'].
    exists cp'. split; [exact Hm'|].
    pose proof (draw_hull_cases ConvexHull pts cl c' s) as H.
    rewrite Hm' in H.
    destruct (cluster_boundary ConvexHull cp') as [[polygon|]|e0];
      rewrite H in Hout'; try discriminate.
    inversion Hout'. reflexivity. }
  destruct Hc'b as [cp' [Hm' Hb']].
  assert (Hrun : run = (Raise e', Figure :: events
                   (for_each (np_unique cl)
                      (draw_hull rng_state ConvexHull pts cl) s), s)).
  { unfold run, plot_opinion_clusters. rewrite bind_emit.
    rewrite (bind_raise _ _ s e' Hloop), Hfin. reflexivity. }
  exists e'. rewrite Hrun. split; [reflexivity|]. split; [|split].
  - exists c', cp'. auto.
  - apply List.Forall_forall. intros ev [<-|Hin']; [left; reflexivity|].
    right. destruct (Hev ev Hin') as [x [_ Hx]].
    exact (draw_hull_events ConvexHull pts cl x s ev Hx).
  - intros Hothers. destruct (Z.eq_dec c' cid) as [->|Hne].
    + congruence.
    + destruct (Hothers c' cp' Hc' Hne Hm') as [b Hok]. congruence.
Qed.

Lemma degenerate_cluster_is_reported_witness :
  outcome (plot_opinion_clusters unit no_hull file_written figure_shown
             points_on_a_line [0; 0; 0]%Z ["ann"; "bob"; "cy"] None tt)
  = Raise QhullError.
Proof.
  destruct (degenerate_cluster_is_reported unit no_hull file_written figure_shown
              points_on_a_line [0; 0; 0]%Z ["ann"; "bob"; "cy"] None tt
              0%Z points_on_a_line QhullError)
    as [e' [Hout [_ [_ He']]]].
  - left. reflexivity.
  - reflexivity.
  - simpl. lia.
  - reflexivity.
  - rewrite Hout. f_equal. apply He'.
    intros c' cp' [<-|[]] Hne. congruence.
Defined.

Lemma insert_unique_cons (x : Z) (l : list Z) :
  exists y l', insert_unique x l = y :: l'.
Proof.
  destruct l as [|z l]; simpl.
  - eexists _, _. reflexivity.
  - destruct (x <? z)%Z; [eexists _, _; reflexivity|].
    destruct (x =? z)%Z; eexists _, _; reflexivity.
Qed.

(** C10.  The limits of the view are defined for every point set that is
    not empty; with no points at all the plot raises (ValueError from the
    minimum of an empty array when there are no labels and no names either)
    and no figure is saved or shown. *)
Theorem plot_needs_points :
  (forall pts : list point, pts <> [] ->
     exists x_min x_max y_min y_max lim,
       np_min (map fst pts) = Ok x_min /\ np_max (map fst pts) = Ok x_max /\
       np_min (map snd pts) = Ok y_min /\ np_max (map snd pts) = Ok y_max /\
       view_limits pts = Ok lim) /\
  (forall (rng_state : Type) ConvexHull savefig show cl us out
          (s : rng_state),
     let run := plot_opinion_clusters rng_state ConvexHull savefig show
                  [] cl us out s in
     exists e, outcome run = Raise e /\
       ~ In ShowFigure (events run) /\
       (forall path, ~ In (Savefig path) (events run)) /\
       (cl = [] -> us = [] -> e = ValueError)).
Proof.
  split.
  - intros [|p pts] Hne; [congruence|].
    unfold view_limits. simpl. do 5 eexists. repeat split.
  - intros rng_state ConvexHull savefig show cl us out s run.
    destruct cl as [|c cl].
    + destruct us as [|u us].
      * exists ValueError. subst run. simpl.
        split; [reflexivity|]. split; [|split]; [| |reflexivity].
        -- intros [H|[H|[]]]; discriminate.
        -- intros path [H|[H|[]]]; discriminate.
      * exists IndexError. subst run. simpl.
        split; [reflexivity|]. split; [|split]; [| |discriminate].
        -- intros [H|[H|[]]]; discriminate.
        -- intros path [H|[H|[]]]; discriminate.
    + exists IndexError. subst run. unfold plot_opinion_clusters.
      simpl np_unique.
      destruct (insert_unique_cons c (np_unique cl)) as [y [l ->]].
      simpl.
      split; [reflexivity|]. split; [|split]; [| |discriminate].
      * intros [H|[]]; discriminate.
      * intros path [H|[]]; discriminate.
Qed.

Lemma plot_needs_points_witness :
  exists lim, view_limits [(1, 2)] = Ok lim.
Proof.
  destruct (proj1 plot_needs_points [(1, 2)])
    as [x_min [x_max [y_min [y_max [lim [_ [_ [_ [_ H]]]]]]]]].
  - discriminate.
  - exists lim. exact H.
Defined.

(** ** Cluster geometry *)

(** *** Arrays row by row *)

Lemma rows2_map {A B C : Type} (f : A -> B -> C) (g : A -> B) (l : list A) :
  rows2 f l (map g l) = map (fun a => f a (g a)) l.
Proof. induction l as [|a l IH]; simpl; [reflexivity | rewrite IH; reflexivity]. Qed.

Lemma buffered_points_rows (hull_points : list point) :
  buffered_points hull_points
  = map (push (np_mean hull_points)) hull_points.
Proof.
  unfold buffered_points, normalized_vectors, lengths, vectors. cbv zeta.
  rewrite rows2_map, map_map, rows2_map. reflexivity.
Qed.

Lemma lengths_rows (hull_points : list point) (c : point) :
  lengths (vectors hull_points c) = map (fun p => dist p c) hull_points.
Proof. unfold lengths, vectors. rewrite map_map. reflexivity. Qed.

Lemma take_rows_incl (pts : list point) (vertices : list nat)
    (hull_points : list point) :
  take_rows pts vertices = Ok hull_points ->
  forall p, In p hull_points -> In p pts.
Proof.
  revert hull_points. induction vertices as [|i vs IH]; simpl; intros hp H.
  - inversion H. intros p [].
  - destruct (pts !! i) as [q|] eqn:Hq; [|discriminate].
    destruct (take_rows pts vs) as [ps|e]; [|discriminate].
    inversion H; subst. intros p [<-|Hp].
    + apply list_elem_of_In. eapply list_elem_of_lookup_2. exact Hq.
    + apply (IH ps eq_refl p Hp).
Qed.

(** *** Sums and the centroid *)

Lemma Rsum_linear (a b : R) (l : list point) :
  a * Rsum (map fst l) + b * Rsum (map snd l)
  = Rsum (map (fun q => a * fst q + b * snd q) l).
Proof.
  induction l as [|q l IH]; simpl; [lra|]. rewrite <- IH. lra.
Qed.

Lemma Rsum_le (f : point -> R) (m : R) (l : list point) :
  (forall q, In q l -> f q <= m) -> Rsum (map f l) <= INR (length l) * m.
Proof.
  induction l as [|q l IH]; intros H.
  - simpl. lra.
  - change (f q + Rsum (map f l) <= INR (S (length l)) * m).
    rewrite S_INR.
    pose proof (H q (or_introl eq_refl)).
    pose proof (IH (fun x Hx => H x (or_intror Hx))). lra.
Qed.

Lemma Rsum_lt (f : point -> R) (m : R) (l : list point) (q : point) :
  (forall x, In x l -> f x <= m) -> In q l -> f q < m ->
  Rsum (map f l) < INR (length l) * m.
Proof.
  induction l as [|x l IH]; intros H Hq Hlt; [contradiction|].
  change (f x + Rsum (map f l) < INR (S (length l)) * m).
  rewrite S_INR. destruct Hq as [->|Hq].
  - pose proof (Rsum_le f m l (fun y Hy => H y (or_intror Hy))). lra.
  - pose proof (H x (or_introl eq_refl)).
    pose proof (IH (fun y Hy => H y (or_intror Hy)) Hq Hlt). lra.
Qed.

Lemma centroid_sums (l : list point) :
  l <> [] ->
  INR (length l) * fst (np_mean l) = Rsum (map fst l) /\
  INR (length l) * snd (np_mean l) = Rsum (map snd l).
Proof.
  intros Hne. assert (Hn : 0 < INR (length l)).
  { apply lt_0_INR. destruct l; [congruence | simpl; lia]. }
  unfold np_mean. simpl. split; field; lra.
Qed.

Lemma point_eq_or_not (p q : point) : p = q \/ p <> q.
Proof.
  destruct p as [px py], q as [qx qy].
  destruct (Req_dec px qx) as [->|Hx]; [|right; congruence].
  destruct (Req_dec py qy) as [->|Hy]; [left; reflexivity | right; congruence].
Qed.

(** A vertex of a polygon with a second, different vertex is not the mean
    of the vertices. *)
Lemma vertex_off_centroid (l : list point) (p q : point) :
  In p l -> In q l -> q <> p -> is_vertex l p -> p <> np_mean l.
Proof.
  intros Hp Hq Hne [a [b Hside]] Heq.
  assert (Hl : l <> []) by (destruct l; [contradiction | congruence]).
  destruct (centroid_sums l Hl) as [Hx Hy].
  set (f := fun x : point => a * fst x + b * snd x).
  assert (Hsum : Rsum (map f l) = INR (length l) * f p).
  { unfold f. rewrite <- Rsum_linear, <- Hx, <- Hy, <- Heq. ring. }
  assert (Hlt : Rsum (map f l) < INR (length l) * f p).
  { apply Rsum_lt with (q := q).
    - intros x Hin. destruct (point_eq_or_not x p) as [->|Hxp]; [lra|].
      left. apply Hside; assumption.
    - exact Hq.
    - apply Hside; assumption. }
  lra.
Qed.

(** *** Distances *)

Lemma pow2_pos (x : R) : x <> 0 -> 0 < x ^ 2.
Proof. intros Hx. nra. Qed.

Lemma dist_pos (p c : point) : p <> c -> 0 < dist p c.
Proof.
  intros Hne. unfold dist. apply sqrt_lt_R0.
  destruct p as [px py], c as [cx cy]. cbn [fst snd].
  destruct (Req_dec px cx) as [->|Hx].
  - assert (Hy : py - cy <> 0) by (intros H; apply Hne; f_equal; lra).
    pose proof (pow2_pos _ Hy). pose proof (pow2_ge_0 (cx - cx)). lra.
  - assert (Hx' : px - cx <> 0) by lra.
    pose proof (pow2_pos _ Hx'). pose proof (pow2_ge_0 (py - cy)). lra.
Qed.

(** Pushing a vertex away from the centroid adds the margin to its
    distance. *)
Lemma push_dist (c p : point) :
  0 < dist p c -> dist (push c p) c = dist p c + margin.
Proof.
  unfold dist, push. destruct p as [px py], c as [cx cy]. cbn [fst snd].
  set (vx := px - cx). set (vy := py - cy).
  set (L := sqrt (vx ^ 2 + vy ^ 2)). intros HL.
  assert (Hsq : L ^ 2 = vx ^ 2 + vy ^ 2).
  { unfold L. apply pow2_sqrt.
    pose proof (pow2_ge_0 vx). pose proof (pow2_ge_0 vy). lra. }
  replace ((px + vx / L * margin - cx) ^ 2 + (py + vy / L * margin - cy) ^ 2)
    with ((L + margin) ^ 2).
  - apply sqrt_pow2. unfold margin. lra.
  - transitivity ((vx ^ 2 + vy ^ 2) * (1 + / L * margin) ^ 2);
      [|unfold vx, vy, Rdiv; ring].
    rewrite <- Hsq.
    transitivity ((L + (L * / L) * margin) ^ 2); [|ring].
    rewrite Rinv_r by lra. ring.
Qed.

Lemma unit_vector (vx vy : R) :
  0 < sqrt (vx ^ 2 + vy ^ 2) ->
  (vx / sqrt (vx ^ 2 + vy ^ 2)) ^ 2 + (vy / sqrt (vx ^ 2 + vy ^ 2)) ^ 2 = 1.
Proof.
  set (L := sqrt (vx ^ 2 + vy ^ 2)). intros HL.
  assert (Hsq : L ^ 2 = vx ^ 2 + vy ^ 2).
  { unfold L. apply pow2_sqrt.
    pose proof (pow2_ge_0 vx). pose proof (pow2_ge_0 vy). lra. }
  transitivity ((vx ^ 2 + vy ^ 2) * (/ L * / L)); [unfold Rdiv; ring|].
  rewrite <- Hsq. field. lra.
Qed.

Lemma two_vertices (l : list point) (p : point) :
  (2 <= length l)%nat -> List.NoDup l -> exists q, In q l /\ q <> p.
Proof.
  destruct l as [|x [|y l]]; simpl; try lia. intros _ Hnd.
  assert (Hxy : x <> y).
  { inversion Hnd as [|? ? Hnin _]; subst. intros ->. apply Hnin. left.
    reflexivity. }
  destruct (point_eq_or_not x p) as [->|Hx].
  - exists y. split; [right; left; reflexivity | congruence].
  - exists x. split; [left; reflexivity | exact Hx].
Qed.

(** The hull vertices of a successful call are all off their centroid. *)
Lemma hull_points_off_centroid (pts : list point) (vertices : list nat)
    (hull_points : list point) :
  take_rows pts vertices = Ok hull_points ->
  (3 <= length hull_points)%nat -> List.NoDup hull_points ->
  List.Forall (is_vertex pts) hull_points ->
  forall p, In p hull_points -> 0 < dist p (np_mean hull_points).
Proof.
  intros Htake Hlen Hnd Hvs p Hp.
  destruct (two_vertices hull_points p) as [q [Hq Hqp]]; [lia | exact Hnd |].
  apply dist_pos. apply vertex_off_centroid with (q := q); auto.
  rewrite List.Forall_forall in Hvs.
  destruct (Hvs p Hp) as [a [b Hside]]. exists a, b.
  intros x Hx Hxp. apply Hside; [|exact Hxp].
  exact (take_rows_incl pts vertices hull_points Htake x Hx).
Qed.

(** C9.  When the hull computation succeeds, every hull vertex is at a
    strictly positive distance from the centroid of the hull vertices: every
    entry of [lengths] is positive, no division is by zero, and every
    normalized vector has length one. *)
Theorem hull_vertices_off_centroid
    (ConvexHull : list point -> result (list nat))
    (pts : list point) (vertices : list nat) :
  ConvexHull pts = Ok vertices -> hull_contract pts (ConvexHull pts) ->
  exists hull_points,
    take_rows pts vertices = Ok hull_points /\
    let centroid := np_mean hull_points in
    let vs := vectors hull_points centroid in
    List.Forall (fun p => 0 < dist p centroid) hull_points /\
    List.Forall (fun l => 0 < l) (lengths vs) /\
    List.Forall (fun n => fst n ^ 2 + snd n ^ 2 = 1)
                (normalized_vectors vs (lengths vs)).
Proof.
  intros Hcall Hc. rewrite Hcall in Hc.
  destruct Hc as [hp [Htake [Hlen [Hnd Hvs]]]].
  exists hp. split; [exact Htake|]. intros centroid vs.
  pose proof (hull_points_off_centroid pts vertices hp Htake Hlen Hnd Hvs)
    as Hpos.
  split; [|split].
  - apply List.Forall_forall. exact Hpos.
  - unfold vs. rewrite lengths_rows. apply List.Forall_forall.
    intros l Hl. apply in_map_iff in Hl. destruct Hl as [p [<- Hp]].
    apply Hpos, Hp.
  - unfold normalized_vectors, lengths. rewrite rows2_map.
    apply List.Forall_forall. intros n Hn.
    apply in_map_iff in Hn. destruct Hn as [v [<- Hv]].
    unfold vs, vectors in Hv. apply in_map_iff in Hv.
    destruct Hv as [p [<- Hp]]. cbn [fst snd].
    apply unit_vector. exact (Hpos p Hp).
Qed.

(** *** The boundary polygon *)

Lemma boundary_too_small (ConvexHull : list point -> result (list nat))
    (pts : list point) :
  (length pts < 3)%nat -> cluster_boundary ConvexHull pts = Ok None.
Proof.
  intros Hlen. unfold cluster_boundary.
  replace (3 <=? length pts)%nat with false
    by (symmetry; apply Nat.leb_gt; exact Hlen).
  reflexivity.
Qed.

Lemma boundary_of_hull (ConvexHull : list point -> result (list nat))
    (pts : list point) (vertices : list nat) (p0 : point)
    (rest : list point) :
  (3 <= length pts)%nat -> ConvexHull pts = Ok vertices ->
  take_rows pts vertices = Ok (p0 :: rest) ->
  cluster_boundary ConvexHull pts
  = Ok (Some (map (push (np_mean (p0 :: rest))) (p0 :: rest)
              ++ [push (np_mean (p0 :: rest)) p0])%list).
Proof.
  intros Hlen Hcall Htake. unfold cluster_boundary.
  replace (3 <=? length pts)%nat with true
    by (symmetry; apply Nat.leb_le; exact Hlen).
  rewrite Hcall. cbn [rbind]. rewrite Htake. cbn [rbind].
  rewrite buffered_points_rows. reflexivity.
Qed.

Lemma Forall2_rows {A B : Type} (P : B -> A -> Prop) (f : A -> B)
    (l : list A) :
  (forall a, In a l -> P (f a) a) -> List.Forall2 P (map f l) l.
Proof.
  induction l as [|a l IH]; intros H; simpl; constructor.
  - apply H. left. reflexivity.
  - apply IH. intros x Hx. apply H. right. exact Hx.
Qed.

(** C3.  When the hull of a cluster of at least three points is computed,
    every vertex of the boundary polygon, the closing one included, is
    farther from the centroid of the hull vertices than the hull vertex it
    comes from, by exactly the margin 0.5 (coordinates are real numbers
    here). *)
Theorem buffer_adds_margin
    (ConvexHull : list point -> result (list nat))
    (pts : list point) (vertices : list nat) :
  (3 <= length pts)%nat -> ConvexHull pts = Ok vertices ->
  hull_contract pts (ConvexHull pts) ->
  exists hull_points polygon,
    take_rows pts vertices = Ok hull_points /\
    cluster_boundary ConvexHull pts = Ok (Some polygon) /\
    let centroid := np_mean hull_points in
    List.Forall2
      (fun b p => dist p centroid < dist b centroid /\
                  dist b centroid = dist p centroid + 0.5)
      polygon (hull_points ++ firstn 1 hull_points)%list.
Proof.
  intros Hlen Hcall Hc. rewrite Hcall in Hc.
  destruct Hc as [hp [Htake [Hlen' [Hnd Hvs]]]].
  pose proof (hull_points_off_centroid pts vertices hp Htake Hlen' Hnd Hvs)
    as Hpos.
  destruct hp as [|p0 rest]; [simpl in Hlen'; lia|].
  exists (p0 :: rest). eexists. split; [exact Htake|].
  split; [exact (boundary_of_hull ConvexHull pts vertices p0 rest
                   Hlen Hcall Htake)|].
  intros centroid.
  assert (Hstep : forall p, In p (p0 :: rest) ->
            dist p centroid < dist (push centroid p) centroid /\
            dist (push centroid p) centroid = dist p centroid + 0.5).
  { intros p Hp. rewrite (push_dist centroid p (Hpos p Hp)).
    unfold margin. split; lra. }
  apply List.Forall2_app.
  - apply Forall2_rows. exact Hstep.
  - simpl. constructor; [|constructor]. apply Hstep. left. reflexivity.
Qed.

Lemma sliver_not_collinear : ~ collinear sliver.
Proof.
  intros [a [b [c [Hab H]]]].
  pose proof (H (0, 0) (or_introl eq_refl)) as H0.
  pose proof (H (1, 1e-20) (or_intror (or_introl eq_refl))) as H1.
  pose proof (H (2, 0) (or_intror (or_intror (or_introl eq_refl)))) as H2.
  cbn [fst snd] in H0, H1, H2.
  destruct Hab as [Ha|Hb]; [apply Ha | apply Hb]; lra.
Qed.

(** C4, as stated, fails: the three points (0,0), (1,1e-20), (2,0) are not
    on one line, yet Qhull refuses them, the exception leaves the boundary
    computation and no polygon is produced. *)
Lemma sliver_has_no_polygon :
  (3 <= length sliver)%nat /\ ~ collinear sliver /\
  cluster_boundary qhull_on_sliver sliver = Raise QhullError /\
  ~ (exists polygon,
       cluster_boundary qhull_on_sliver sliver = Ok (Some polygon)).
Proof.
  split; [simpl; lia|]. split; [exact sliver_not_collinear|].
  split; [reflexivity|]. intros [polygon H]. discriminate H.
Qed.

(** C4, amended.  A cluster of fewer than three points gets no boundary
    polygon.  A cluster of three or more points gets one when the hull
    computation succeeds, which points off one line do not guarantee: the
    polygon is then the buffered hull vertices followed by the first of
    them again, so it is closed, its first vertex and its last being the
    same, and it has at least four vertices.  When the hull computation
    raises, the boundary computation raises the same exception and there is
    no polygon. *)
Theorem boundary_only_from_three_points
    (ConvexHull : list point -> result (list nat)) (pts : list point) :
  ((length pts < 3)%nat -> cluster_boundary ConvexHull pts = Ok None) /\
  ((3 <= length pts)%nat ->
   forall vertices, ConvexHull pts = Ok vertices ->
   hull_contract pts (ConvexHull pts) ->
   exists hull_points polygon first,
     take_rows pts vertices = Ok hull_points /\
     head (buffered_points hull_points) = Some first /\
     polygon = (buffered_points hull_points ++ [first])%list /\
     cluster_boundary ConvexHull pts = Ok (Some polygon) /\
     head polygon = Some first /\ last polygon = Some first /\
     length polygon = S (length hull_points) /\
     (4 <= length polygon)%nat) /\
  ((3 <= length pts)%nat ->
   forall e, ConvexHull pts = Raise e ->
   cluster_boundary ConvexHull pts = Raise e).
Proof.
  split; [apply boundary_too_small|]. split.
  - intros Hlen vertices Hcall Hc. rewrite Hcall in Hc.
    destruct Hc as [hp [Htake [Hlen' _]]].
    destruct hp as [|p0 rest]; [simpl in Hlen'; lia|].
    exists (p0 :: rest). eexists. exists (push (np_mean (p0 :: rest)) p0).
    split; [exact Htake|].
    split; [rewrite buffered_points_rows; reflexivity|].
    split; [reflexivity|].
    rewrite buffered_points_rows.
    split; [exact (boundary_of_hull ConvexHull pts vertices p0 rest
                     Hlen Hcall Htake)|].
    split; [reflexivity|]. split; [apply last_snoc|].
    rewrite length_app, length_map. simpl in *. split; lia.
  - intros Hlen e Hcall. unfold cluster_boundary.
    replace (3 <=? length pts)%nat with true
      by (symmetry; apply Nat.leb_le; exact Hlen).
    rewrite Hcall. reflexivity.
Qed.

(** *** A triangle *)

Lemma triangle_contract : hull_contract triangle (triangle_hull triangle).
Proof.
  exists triangle. split; [reflexivity|]. split; [simpl; lia|]. split.
  - repeat constructor; simpl; intros H;
      repeat (destruct H as [H|H]; [injection H; intros; lra|]);
      exact H.
  - repeat constructor.
    + exists (-1), (-1). intros q [<-|[<-|[<-|[]]]] Hne; simpl;
        try lra; congruence.
    + exists 1, 0. intros q [<-|[<-|[<-|[]]]] Hne; simpl;
        try lra; congruence.
    + exists 0, 1. intros q [<-|[<-|[<-|[]]]] Hne; simpl;
        try lra; congruence.
Qed.

Lemma hull_vertices_off_centroid_witness :
  exists hull_points,
    take_rows triangle [0; 1; 2]%nat = Ok hull_points /\
    let centroid := np_mean hull_points in
    let vs := vectors hull_points centroid in
    List.Forall (fun p => 0 < dist p centroid) hull_points /\
    List.Forall (fun l => 0 < l) (lengths vs) /\
    List.Forall (fun n => fst n ^ 2 + snd n ^ 2 = 1)
                (normalized_vectors vs (lengths vs)).
Proof.
  exact (hull_vertices_off_centroid triangle_hull triangle [0; 1; 2]%nat
           eq_refl triangle_contract).
Defined.

Lemma buffer_adds_margin_witness :
  exists hull_points polygon,
    take_rows triangle [0; 1; 2]%nat = Ok hull_points /\
    cluster_boundary triangle_hull triangle = Ok (Some polygon) /\
    let centroid := np_mean hull_points in
    List.Forall2
      (fun b p => dist p centroid < dist b centroid /\
                  dist b centroid = dist p centroid + 0.5)
      polygon (hull_points ++ firstn 1 hull_points)%list.
Proof.
  apply (buffer_adds_margin triangle_hull triangle [0; 1; 2]%nat).
  - simpl. lia.
  - reflexivity.
  - exact triangle_contract.
Defined.

Lemma boundary_only_from_three_points_witness :
  cluster_boundary triangle_hull [(0, 0); (1, 1)] = Ok None /\
  (exists hull_points polygon first,
     take_rows triangle [0; 1; 2]%nat = Ok hull_points /\
     head (buffered_points hull_points) = Some first /\
     polygon = (buffered_points hull_points ++ [first])%list /\
     cluster_boundary triangle_hull triangle = Ok (Some polygon) /\
     head polygon = Some first /\ last polygon = Some first /\
     length polygon = S (length hull_points) /\
     (4 <= length polygon)%nat) /\
  cluster_boundary qhull_on_sliver sliver = Raise QhullError.
Proof.
  split; [|split].
  - apply (proj1 (boundary_only_from_three_points triangle_hull
                    [(0, 0); (1, 1)])). simpl. lia.
  - apply (proj1 (proj2 (boundary_only_from_three_points triangle_hull
                           triangle))).
    + simpl. lia.
    + reflexivity.
    + exact triangle_contract.
  - apply (proj2 (proj2 (boundary_only_from_three_points qhull_on_sliver
                           sliver))).
    + simpl. lia.
    + reflexivity.
Defined.

(** ** Checks on small inputs *)

Example unique_example : np_unique [2; 0; 2; 1; 0]%Z = [0; 1; 2]%Z.
Proof. reflexivity. Qed.

Example color_example : cluster_color 1 [0; 1; 1; 0]%Z = 128%Z.
Proof. reflexivity. Qed.

Example matrix_example :
  vote_rows three_ballots = [[1; -1]; [1; 1]; [-1; -1]]%Z.
Proof. reflexivity. Qed.

Example mean_example : np_mean [(3, 4); (-3, 4); (0, -8)] = (0, 0).
Proof. unfold np_mean. simpl. f_equal; field. Qed.

(** A hull whose centroid is the origin: each vertex moves by 0.5 along its
    own direction. *)
Example buffered_example :
  buffered_points [(3, 4); (-3, 4); (0, -8)]
  = [(3.3, 4.4); (-3.3, 4.4); (0, -8.5)].
Proof.
  rewrite buffered_points_rows, mean_example. unfold push, margin.
  cbn [map fst snd].
  replace (sqrt ((3 - 0) ^ 2 + (4 - 0) ^ 2)) with 5
    by (symmetry; replace ((3 - 0) ^ 2 + (4 - 0) ^ 2) with (5 ^ 2) by ring;
        apply sqrt_pow2; lra).
  replace (sqrt ((-3 - 0) ^ 2 + (4 - 0) ^ 2)) with 5
    by (symmetry; replace ((-3 - 0) ^ 2 + (4 - 0) ^ 2) with (5 ^ 2) by ring;
        apply sqrt_pow2; lra).
  replace (sqrt ((0 - 0) ^ 2 + (-8 - 0) ^ 2)) with 8
    by (symmetry; replace ((0 - 0) ^ 2 + (-8 - 0) ^ 2) with (8 ^ 2) by ring;
        apply sqrt_pow2; lra).
  repeat f_equal; lra.
Qed.

(** * Part IV: further properties of the code *)

(** ** The vote matrix *)

Lemma vote_value_range (v : string) :
  (vote_value v = 1 \/ vote_value v = -1 \/ vote_value v = 0)%Z.
Proof.
  destruct (String.eqb_spec v "agree") as [->|Ha]; [left; reflexivity|].
  destruct (String.eqb_spec v "disagree") as [->|Hd];
    [right; left; reflexivity|].
  right. right. apply vote_value_other; assumption.
Qed.

Lemma np_array_shape (l : list (list Z)) (m : matrix) :
  np_array l = Ok m ->
  n_rows m = length l /\ List.Forall (fun r => length r = n_cols m) l.
Proof.
  destruct l as [|r rs]; simpl.
  - intros H. inversion H. simpl. split; [reflexivity | constructor].
  - destruct (forallb _ rs) eqn:Hall; intros H; inversion H. simpl.
    split; [reflexivity|]. constructor; [reflexivity|].
    apply List.Forall_forall. intros r' Hr'.
    rewrite forallb_forall in Hall. apply Nat.eqb_eq, Hall, Hr'.
Qed.

(** X1.  A vote matrix that is built is rectangular, has one row per
    participant in the order of the document, row [i] being the votes of
    participant [i], and holds only the values 1, -1 and 0. *)
Theorem vote_matrix_shape (data : document) st (m : matrix) us :
  build data = Ok (st, m, us) ->
  n_rows m = length (votes data) /\
  length us = n_rows m /\ length (rows m) = n_rows m /\
  List.Forall (fun row => length row = n_cols m) (rows m) /\
  List.Forall (List.Forall (fun v => v = 1 \/ v = -1 \/ v = 0)%Z) (rows m) /\
  (forall (i : nat) kv, votes data !! i = Some kv ->
     us !! i = Some (fst kv) /\ rows m !! i = Some (vote_row (snd kv))).
Proof.
  intros Hb. unfold build in Hb.
  destruct (np_array (vote_rows data)) as [m'|e] eqn:Harr; [|discriminate].
  inversion Hb; subst. clear Hb.
  destruct (np_array_shape _ _ Harr) as [Hn Hcols].
  apply np_array_rows in Harr. rewrite Harr.
  unfold vote_rows in *. rewrite length_map in Hn.
  split; [exact Hn|]. split; [rewrite length_map; lia|].
  split; [rewrite length_map; lia|]. split; [exact Hcols|]. split.
  - apply List.Forall_forall. intros row Hrow.
    apply in_map_iff in Hrow. destruct Hrow as [kv [<- _]].
    apply List.Forall_forall. intros v Hv.
    apply in_map_iff in Hv. destruct Hv as [t [<- _]].
    apply vote_value_range.
  - intros i kv Hi. rewrite !list_lookup_fmap, Hi. split; reflexivity.
Qed.

Lemma vote_matrix_shape_witness :
  n_rows {| n_rows := 3; n_cols := 2;
            rows := [[1; -1]; [1; 1]; [-1; -1]]%Z |}
  = length (votes three_ballots).
Proof.
  exact (proj1 (vote_matrix_shape three_ballots ["s1"; "s2"]
                  {| n_rows := 3; n_cols := 2;
                     rows := [[1; -1]; [1; 1]; [-1; -1]]%Z |}
                  ["alice"; "bob"; "carol"] eq_refl)).
Defined.

(** ** The colour of an overlay *)

Lemma viridis_bounds (x : Q) : (0 <= viridis x <= 255)%Z.
Proof.
  unfold viridis. destruct (Qle_bool 0 x) eqn:H0; cbn [negb]; [|lia].
  destruct (Qle_bool 1 x) eqn:H1; [lia|].
  apply Qle_bool_iff in H0.
  assert (Hlt : (x < 1)%Q).
  { apply Qnot_le_lt. intros H. apply Qle_bool_iff in H. congruence. }
  split.
  - change 0%Z with (Qfloor 0). apply Qfloor_resp_le.
    apply Qmult_le_0_compat; [exact H0 | discriminate].
  - assert (H : (inject_Z (Qfloor (x * 256)) < inject_Z 256)%Q).
    { eapply Qle_lt_trans; [apply Qfloor_le|].
      change (inject_Z 256) with (1 * 256)%Q.
      apply Qmult_lt_compat_r; [reflexivity | exact Hlt]. }
    rewrite <- Zlt_Qlt in H. lia.
Qed.

Lemma viridis_mono (x y : Q) : (x <= y)%Q -> (viridis x <= viridis y)%Z.
Proof.
  intros Hxy. pose proof (viridis_bounds x) as Bx.
  pose proof (viridis_bounds y) as By. unfold viridis in *.
  destruct (Qle_bool 0 x) eqn:H0x; cbn [negb] in *; [|lia].
  assert (H0y : Qle_bool 0 y = true).
  { apply Qle_bool_iff. apply Qle_bool_iff in H0x.
    eapply Qle_trans; eassumption. }
  rewrite H0y in *. cbn [negb] in *.
  destruct (Qle_bool 1 x) eqn:H1x.
  - assert (H1y : Qle_bool 1 y = true).
    { apply Qle_bool_iff. apply Qle_bool_iff in H1x.
      eapply Qle_trans; eassumption. }
    rewrite H1y. lia.
  - destruct (Qle_bool 1 y) eqn:H1y; [lia|].
    apply Qfloor_resp_le. apply Qmult_le_compat_r; [exact Hxy | discriminate].
Qed.

Lemma labels_nonempty (cl : list Z) :
  cl <> [] -> (0 < Z.of_nat (length (np_unique cl)))%Z.
Proof.
  destruct cl as [|c cl]; [congruence|]. intros _. simpl np_unique.
  destruct (insert_unique_cons c (np_unique cl)) as [y [l ->]].
  simpl. lia.
Qed.

(** X2.  The colour of an overlay is an index between 0 and 255 that does
    not decrease with the label; a negative label gets the colour of label
    0, the first of the table, and a label that is not below the number of
    distinct labels gets the last. *)
Theorem color_is_clamped (cl : list Z) (a b : Z) :
  cl <> [] ->
  (0 <= cluster_color a cl <= 255)%Z /\
  ((a <= b)%Z -> (cluster_color a cl <= cluster_color b cl)%Z) /\
  ((a <= 0)%Z -> cluster_color a cl = 0%Z) /\
  ((Z.of_nat (length (np_unique cl)) <= a)%Z -> cluster_color a cl = 255%Z).
Proof.
  intros Hcl. pose proof (labels_nonempty cl Hcl) as HK.
  unfold cluster_color, color_arg.
  set (K := Z.of_nat (length (np_unique cl))) in *.
  assert (HKq : (0 < inject_Z K)%Q).
  { replace 0%Q with (inject_Z 0) by reflexivity. rewrite <- Zlt_Qlt. lia. }
  assert (Hmono : forall u v : Z, (u <= v)%Z ->
            (inject_Z u / inject_Z K <= inject_Z v / inject_Z K)%Q).
  { intros u v Huv. unfold Qdiv. apply Qmult_le_compat_r.
    - rewrite <- Zle_Qle. exact Huv.
    - apply Qlt_le_weak, Qinv_lt_0_compat, HKq. }
  split; [apply viridis_bounds|]. split; [|split].
  - intros Hab. apply viridis_mono, Hmono, Hab.
  - intros Ha. pose proof (viridis_bounds (inject_Z a / inject_Z K)).
    pose proof (viridis_mono _ _ (Hmono a 0%Z Ha)) as H0.
    replace (viridis (inject_Z 0 / inject_Z K)) with 0%Z in H0; [lia|].
    symmetry. rewrite (viridis_fraction 0 K) by lia. reflexivity.
  - intros Ha. unfold viridis.
    assert (H1 : (1 <= inject_Z a / inject_Z K)%Q).
    { apply Qle_shift_div_l; [exact HKq|]. rewrite Qmult_1_l.
      rewrite <- Zle_Qle. exact Ha. }
    assert (H0 : (0 <= inject_Z a / inject_Z K)%Q).
    { eapply Qle_trans; [|exact H1]. discriminate. }
    apply Qle_bool_iff in H0, H1. rewrite H0, H1. reflexivity.
Qed.

Lemma color_is_clamped_witness :
  cluster_color (-1) [-1; 0; 0; 1]%Z = 0%Z.
Proof.
  refine (proj1 (proj2 (proj2 (color_is_clamped [-1; 0; 0; 1]%Z (-1) 0 _)))
            _).
  - discriminate.
  - lia.
Defined.

(** ** More on sequencing *)

Section MoreMonadLaws.

Context {rng_state : Type}.
Implicit Types s : rng_state.

Lemma bind_run_ok {A B : Type} (c : M rng_state A) (k : A -> M rng_state B)
    s (a : A) ev s1 r ev' s2 :
  c s = (Ok a, ev, s1) -> k a s1 = (r, ev', s2) ->
  bind c k s = (r, (ev ++ ev')%list, s2).
Proof. intros Hc Hk. unfold bind. rewrite Hc, Hk. reflexivity. Qed.

Lemma bind_ok_inv {A B : Type} (c : M rng_state A) (k : A -> M rng_state B)
    s (b : B) :
  outcome (bind c k s) = Ok b ->
  exists a, outcome (c s) = Ok a /\ outcome (k a (final (c s))) = Ok b.
Proof.
  destruct (outcome (c s)) as [a|e] eqn:Hc.
  - rewrite (bind_ok c k s a Hc). intros H. exists a. split; [reflexivity|].
    exact H.
  - rewrite (bind_raise c k s e Hc). discriminate.
Qed.







Lemma for_each_ok {A : Type} (l : list A) (body : A -> M rng_state unit)
    (evs : A -> list event) s :
  (forall x, In x l -> body x s = (Ok tt, evs x, s)) ->
  for_each l body s = (Ok tt, flat_map evs l, s).
Proof.
  induction l as [|a l IH]; intros H; simpl.
  - reflexivity.
  - apply bind_run_ok with (a := tt) (s1 := s).
    + apply H. left. reflexivity.
    + apply IH. intros x Hx. apply H. right. exact Hx.
Qed.

Lemma for_each_ok_inv {A : Type} (l : list A)
    (body : A -> M rng_state unit) s :
  (forall x, generator_free (body x)) ->
  outcome (for_each l body s) = Ok tt ->
  forall x, In x l -> outcome (body x s) = Ok tt.
Proof.
  intros Hfree Hok x Hx.
  destruct (outcome (body x s)) as [[]|e] eqn:Hb; [reflexivity|].
  destruct (for_each_raise l body s x e Hfree Hx Hb)
    as [a' [e' [_ [_ [Hr _]]]]].
  congruence.
Qed.

End MoreMonadLaws.

(** ** The trace of a plot *)

Section PlotTraces.

Context {rng_state : Type}.
Variable ConvexHull : list point -> result (list nat).
Variable savefig : string -> result unit.
Variable show : result unit.
Implicit Types (s : rng_state) (pts : list point) (cl : list Z).

Let hull := draw_hull rng_state ConvexHull.
Let plot := plot_opinion_clusters rng_state ConvexHull savefig show.

Lemma mask_index_ok pts cl c :
  length cl = length pts ->
  mask_index pts cl c = Ok (cluster_points pts cl c).
Proof.
  intros H. unfold mask_index. rewrite H, Nat.eqb_refl. reflexivity.
Qed.

Lemma mask_index_lengths pts cl c cp :
  mask_index pts cl c = Ok cp -> length cl = length pts.
Proof.
  unfold mask_index. destruct (Nat.eqb _ _) eqn:H; [|discriminate].
  intros _. apply Nat.eqb_eq, H.
Qed.

Lemma draw_hull_run_ok pts cl c b s :
  length cl = length pts ->
  cluster_boundary ConvexHull (cluster_points pts cl c) = Ok b ->
  hull pts cl c s = (Ok tt, patch_of ConvexHull pts cl c, s).
Proof.
  intros Hlen Hb. pose proof (draw_hull_cases ConvexHull pts cl c s) as H.
  unfold patch_of. rewrite (mask_index_ok pts cl c Hlen) in *.
  rewrite Hb in *. destruct b as [polygon|]; exact H.
Qed.

Lemma draw_hull_ok_inv pts cl c s :
  outcome (hull pts cl c s) = Ok tt ->
  length cl = length pts /\
  exists b, cluster_boundary ConvexHull (cluster_points pts cl c) = Ok b.
Proof.
  intros Hok. pose proof (draw_hull_cases ConvexHull pts cl c s) as H.
  destruct (mask_index pts cl c) as [cp|e] eqn:Hm.
  - pose proof (mask_index_lengths pts cl c cp Hm) as Hlen.
    split; [exact Hlen|].
    rewrite (mask_index_ok pts cl c Hlen) in Hm. inversion Hm; subst cp.
    destruct (cluster_boundary ConvexHull (cluster_points pts cl c))
      as [b|e]; [exists b; reflexivity|].
    fold hull in H. rewrite H in Hok. discriminate.
  - fold hull in H. rewrite H in Hok. discriminate.
Qed.

(** The loop over the user names, started at row [k]. *)
Lemma annotate_loop_ok pts (us : list string) (k : nat) s :
  (k + length us <= length pts)%nat ->
  for_each (combine (seq k (length us)) us) (annotate rng_state pts) s
  = (Ok tt, rows2 Annotate us (drop k pts), s).
Proof.
  revert k. induction us as [|u us IH]; intros k Hk; simpl.
  - reflexivity.
  - destruct (pts !! k) as [xy|] eqn:Hxy.
    + rewrite (drop_S pts xy k Hxy). simpl.
      apply bind_run_ok with (a := tt) (s1 := s) (ev := [Annotate u xy])
        (ev' := rows2 Annotate us (drop (S k) pts)).
      * unfold annotate. simpl. rewrite Hxy. reflexivity.
      * apply IH. simpl in Hk. lia.
    + apply lookup_ge_None in Hxy. simpl in Hk. lia.
Qed.

Lemma annotate_loop_ok_inv pts (us : list string) (k : nat) s :
  outcome (for_each (combine (seq k (length us)) us)
             (annotate rng_state pts) s) = Ok tt ->
  us = [] \/ (k + length us <= length pts)%nat.
Proof.
  revert k. induction us as [|u us IH]; intros k Hok; [left; reflexivity|].
  right. simpl in Hok. apply bind_ok_inv in Hok.
  destruct Hok as [[] [Hfirst Hrest]].
  unfold annotate in Hfirst, Hrest. simpl in Hfirst, Hrest.
  destruct (pts !! k) as [xy|] eqn:Hxy; [|discriminate].
  apply lookup_lt_Some in Hxy.
  destruct (IH (S k) Hrest) as [->|H]; simpl in *; lia.
Qed.

(** The end of the plot, from the limits on: it fails only where saving or
    showing fails. *)
Lemma plot_end_run (out : option string) (lim : limits) s :
  bind (emit (SetLimits lim)) (fun _ =>
    bind (emit Decorate) (fun _ =>
      bind (save_or_show rng_state savefig show out)
           (fun _ => emit CloseFigure))) s
  = match save_result savefig show out with
    | Ok _ => (Ok tt,
               SetLimits lim :: Decorate
                 :: (save_events out ++ [CloseFigure])%list, s)
    | Raise e => (Raise e, [SetLimits lim; Decorate], s)
    end.
Proof.
  unfold save_or_show, save_result, save_events.
  destruct out as [path|]; [destruct (String.eqb path "")|].
  - destruct show as [[]|e]; reflexivity.
  - destruct (savefig path) as [[]|e]; reflexivity.
  - destruct show as [[]|e]; reflexivity.
Qed.

Lemma scatter_run pts cl s :
  cl = [] \/ length cl = length pts ->
  scatter rng_state pts cl s = (Ok tt, [Scatter pts cl], s).
Proof.
  intros H. unfold scatter.
  replace (Nat.eqb (length cl) (length pts) || Nat.eqb (length cl) 0)
    with true; [reflexivity|].
  symmetry. apply orb_true_iff. destruct H as [->|H].
  - right. reflexivity.
  - left. apply Nat.eqb_eq, H.
Qed.

Lemma scatter_ok_inv pts cl s :
  outcome (scatter rng_state pts cl s) = Ok tt ->
  cl = [] \/ length cl = length pts.
Proof.
  unfold scatter.
  destruct (Nat.eqb (length cl) (length pts) || Nat.eqb (length cl) 0)
    eqn:E; [|discriminate].
  intros _. apply orb_true_iff in E. destruct E as [E|E].
  - right. apply Nat.eqb_eq, E.
  - left. apply Nat.eqb_eq in E. destruct cl; [reflexivity | discriminate].
Qed.

(** The run of a plot whose preconditions hold. *)
Lemma plot_run_ok pts cl (us : list string) (out : option string)
    (lim : limits) s :
  cl = [] \/ length cl = length pts ->
  (forall c, In c (np_unique cl) ->
     exists b, cluster_boundary ConvexHull (cluster_points pts cl c) = Ok b) ->
  (length us <= length pts)%nat ->
  view_limits pts = Ok lim ->
  save_result savefig show out = Ok tt ->
  plot pts cl us out s
  = (Ok tt,
     Figure :: (flat_map (patch_of ConvexHull pts cl) (np_unique cl)
       ++ Scatter pts cl :: (rows2 Annotate us pts
       ++ SetLimits lim :: Decorate :: (save_events out ++ [CloseFigure])))%list,
     s).
Proof.
  intros Hfit Hhulls Hus Hlim Hsave. unfold plot, plot_opinion_clusters.
  apply bind_run_ok with (a := tt) (s1 := s) (ev := [Figure]);
    [reflexivity|].
  apply bind_run_ok with (a := tt) (s1 := s).
  { apply for_each_ok. intros c Hc. destruct (Hhulls c Hc) as [b Hb].
    destruct Hfit as [->|Hlen]; [destruct Hc|].
    exact (draw_hull_run_ok pts cl c b s Hlen Hb). }
  apply bind_run_ok with (a := tt) (s1 := s) (ev := [Scatter pts cl]);
    [exact (scatter_run pts cl s Hfit)|].
  apply bind_run_ok with (a := tt) (s1 := s).
  { unfold enumerate. apply (annotate_loop_ok pts us 0 s). simpl. exact Hus. }
  rewrite Hlim.
  apply bind_run_ok with (a := lim) (s1 := s) (ev := []); [reflexivity|].
  rewrite plot_end_run, Hsave. reflexivity.
Qed.

(** What a plot that returns has checked on the way. *)
Lemma plot_ok_conditions pts cl (us : list string) (out : option string) s :
  outcome (plot pts cl us out s) = Ok tt ->
  (cl = [] \/ length cl = length pts) /\
  (forall c, In c (np_unique cl) ->
     length cl = length pts /\
     exists b, cluster_boundary ConvexHull (cluster_points pts cl c) = Ok b) /\
  (length us <= length pts)%nat /\
  (exists lim, view_limits pts = Ok lim) /\
  save_result savefig show out = Ok tt.
Proof.
  unfold plot, plot_opinion_clusters. intros H.
  apply bind_ok_inv in H. destruct H as [[] [_ H]].
  change (final (emit Figure s)) with s in H.
  apply bind_ok_inv in H. destruct H as [[] [Hloop H]].
  destruct (free_for_each (np_unique cl) (hull pts cl)
              (free_draw_hull ConvexHull pts cl) s s) as [_ [_ Hs]].
  fold hull in H. rewrite Hs in H.
  apply bind_ok_inv in H. destruct H as [[] [Hsc H]].
  pose proof (scatter_ok_inv pts cl s Hsc) as Hfit.
  rewrite (scatter_run pts cl s Hfit) in H.
  change (final (Ok tt, [Scatter pts cl], s)) with s in H.
  apply bind_ok_inv in H. destruct H as [[] [Han H]].
  assert (Hs3 : final (for_each (enumerate us) (annotate rng_state pts) s)
                = s).
  { apply (free_for_each (enumerate us) (annotate rng_state pts)); [|exact s].
    intros iu. unfold annotate.
    destruct (pts !! fst iu); [apply free_emit | apply free_lift]. }
  rewrite Hs3 in H.
  apply bind_ok_inv in H. destruct H as [lim [Hlim H]].
  change (final (lift (view_limits pts) s)) with s in H.
  rewrite plot_end_run in H.
  split; [exact Hfit|]. split; [|split; [|split]].
  - intros c Hc.
    pose proof (for_each_ok_inv (np_unique cl) (hull pts cl) s
                  (free_draw_hull ConvexHull pts cl) Hloop c Hc) as Hc'.
    exact (draw_hull_ok_inv pts cl c s Hc').
  - unfold enumerate in Han.
    destruct (annotate_loop_ok_inv pts us 0 s Han) as [->|Hle];
      simpl in *; lia.
  - exists lim. unfold lift, outcome in Hlim. simpl in Hlim.
    exact Hlim.
  - destruct (save_result savefig show out) as [[]|e];
      [reflexivity | discriminate].
Qed.


End PlotTraces.





(** X4.  A plot that returns has done, in this order: opened the figure,
    added one patch for each distinct label with a boundary, in increasing
    order of the labels, scattered all the points once, annotated the i-th
    point with the i-th user name, set the limits, decorated, saved or shown
    the figure, and closed it; the random generator is left as it was. *)
Theorem plot_trace
    (rng_state : Type) (ConvexHull : list point -> result (list nat))
    (savefig : string -> result unit) (show : result unit)
    (pts : list point) (cl : list Z) (us : list string)
    (out : option string) (s : rng_state) :
  let run := plot_opinion_clusters rng_state ConvexHull savefig show
               pts cl us out s in
  outcome run = Ok tt ->
  exists lim,
    view_limits pts = Ok lim /\ final run = s /\
    events run =
      Figure :: (flat_map (patch_of ConvexHull pts cl) (np_unique cl)
        ++ Scatter pts cl :: (rows2 Annotate us pts
        ++ SetLimits lim :: Decorate :: (save_events out ++ [CloseFigure])))%list.
Proof.
  intros run H. apply plot_ok_conditions in H.
  destruct H as [Hfit [Hh [Hus [[lim Hlim] Hsave]]]].
  exists lim. split; [exact Hlim|]. unfold run.
  rewrite (plot_run_ok ConvexHull savefig show pts cl us out lim s Hfit
             (fun c Hc => proj2 (Hh c Hc)) Hus Hlim Hsave).
  split; reflexivity.
Qed.

Lemma plot_trace_witness :
  exists lim,
    events (plot_opinion_clusters unit no_hull file_written figure_shown
              (points_2d three_points) (clusters three_points)
              ["alice"; "bob"; "carol"] (Some "poll.png") tt)
    = [Figure; Scatter (points_2d three_points) (clusters three_points);
       Annotate "alice" (0, 0); Annotate "bob" (1, 2);
       Annotate "carol" (2, 1); SetLimits lim; Decorate;
       Savefig "poll.png"; Stdout "Plot saved to poll.png"; CloseFigure].
Proof.
  destruct (plot_trace unit no_hull file_written figure_shown
              (points_2d three_points) (clusters three_points)
              ["alice"; "bob"; "carol"] (Some "poll.png") tt eq_refl)
    as [lim [_ [_ H]]].
  exists lim. exact H.
Defined.

(** A plot whose image cannot be written raises what [savefig] raises. *)
Lemma unwritable_plot_raises :
  outcome (plot_opinion_clusters unit no_hull
             (fun _ => Raise (OtherError "PermissionError")) figure_shown
             (points_2d three_points) (clusters three_points)
             ["alice"; "bob"; "carol"] (Some "poll.png") tt)
  = Raise (OtherError "PermissionError").
Proof. reflexivity. Qed.



(** ** Runs of [main] *)

Section MainTraces.

Variable rng_state : Type.
Variable draw : rng_state -> R * rng_state.
Variable ConvexHull : list point -> result (list nat).
Variable analyze : matrix -> list string -> result analysis.
Variable safe_load : string -> result document.
Variable with_suffix : string -> string -> string.
Variable savefig : string -> result unit.
Variable show : result unit.

Let run_main :=
  main rng_state draw ConvexHull analyze safe_load with_suffix savefig show.

Lemma build_ok_inv (data : document) st m us :
  build data = Ok (st, m, us) ->
  st = statements data /\ us = map fst (votes data).
Proof.
  unfold build. destruct (np_array (vote_rows data)); [|discriminate].
  intros H. inversion H. auto.
Qed.

Lemma main_analyzer_fails (f : string) (data : document) st m us
    (e : exn) s :
  safe_load f = Ok data -> build data = Ok (st, m, us) ->
  analyze m st = Raise e ->
  run_main f s = (Raise e, [Analyze m st], s).
Proof.
  intros Hload Hbuild Hres. unfold run_main, main, load_from_yaml.
  rewrite Hload. cbn [rbind]. rewrite Hbuild.
  rewrite bind_lift_ok, bind_emit, Hres. reflexivity.
Qed.

(** [np.random.normal] draws its rows from the generator, two draws to a
    row, in order. *)
Lemma normal_draws (n : nat) s :
  exists jitter,
    normal rng_state draw n s = (Ok jitter, [], advance draw (2 * n) s) /\
    length jitter = n /\
    forall i : nat, (i < n)%nat ->
      jitter !! i = Some (fst (draw (advance draw (2 * i) s)),
                          fst (draw (advance draw (2 * i + 1) s))).
Proof.
  revert s. induction n as [|n IH]; intros s.
  - exists []. split; [reflexivity|]. split; [reflexivity|]. intros i Hi. lia.
  - cbn [normal]. unfold bind, random, ret.
    destruct (draw s) as [a s1] eqn:Ha. destruct (draw s1) as [b s2] eqn:Hb.
    destruct (IH s2) as [l [Hrun [Hlen Hrows]]]. rewrite Hrun.
    assert (Hadv : forall k, advance draw (S (S k)) s = advance draw k s2).
    { intros k. cbn [advance]. rewrite Ha. cbn [snd]. rewrite Hb.
      reflexivity. }
    exists ((a, b) :: l). split; [|split].
    + replace (2 * S n)%nat with (S (S (2 * n))) by lia.
      rewrite Hadv. reflexivity.
    + simpl. rewrite Hlen. reflexivity.
    + intros [|i] Hi.
      * cbn [advance Nat.mul Nat.add]. rewrite Ha. cbn [fst snd].
        rewrite Hb. reflexivity.
      * replace (2 * S i)%nat with (S (S (2 * i))) by lia.
        replace (S (S (2 * i)) + 1)%nat with (S (S (2 * i + 1))) by lia.
        rewrite !Hadv. apply Hrows. lia.
Qed.

(** After the analyzer has answered, [main] is the plot of the jittered
    points, started where the draws of the jitter have left the
    generator. *)
Lemma main_run (f : string) (data : document) st m us (res : analysis) s :
  safe_load f = Ok data -> build data = Ok (st, m, us) ->
  analyze m st = Ok res ->
  forall jitter,
    normal rng_state draw (length (points_2d res)) s
    = (Ok jitter, [], advance draw (2 * length (points_2d res)) s) ->
    let pr := plot_opinion_clusters rng_state ConvexHull savefig show
                (add_jitter (points_2d res) jitter) (clusters res) us
                (Some (with_suffix f ".png"))
                (advance draw (2 * length (points_2d res)) s) in
    run_main f s = (outcome pr, Analyze m st :: events pr, final pr).
Proof.
  intros Hload Hbuild Hres jitter Hnormal pr.
  unfold run_main, main, load_from_yaml.
  rewrite Hload. cbn [rbind]. rewrite Hbuild.
  rewrite bind_lift_ok, bind_emit, Hres, bind_lift_ok.
  destruct pr as [[r ev] s2] eqn:Hpr.
  rewrite (bind_run_ok _ _ s jitter [] _ r ev s2 Hnormal Hpr).
  reflexivity.
Qed.

Lemma main_ok_inv (f : string) s :
  outcome (run_main f s) = Ok tt ->
  exists data m res,
    safe_load f = Ok data /\
    build data = Ok (statements data, m, map fst (votes data)) /\
    analyze m (statements data) = Ok res.
Proof.
  unfold run_main, main, load_from_yaml. intros H.
  destruct (safe_load f) as [data|e] eqn:Hload; [|discriminate].
  cbn [rbind] in H.
  destruct (build data) as [[[st m] us]|e] eqn:Hbuild; [|discriminate].
  destruct (build_ok_inv data st m us Hbuild) as [-> ->].
  rewrite bind_lift_ok, bind_emit in H.
  destruct (analyze m (statements data)) as [res|e] eqn:Hres;
    [|discriminate].
  exists data, m, res. auto.
Qed.

End MainTraces.

(** X6.  [main] passes on the exception of the loader and of the analyzer as
    it is.  When the loader fails the analyzer is not called; when the
    analyzer fails it has been called once, no random number has been drawn
    and no figure has been opened. *)
Theorem main_stops_on_failure
    (rng_state : Type) (draw : rng_state -> R * rng_state)
    (ConvexHull : list point -> result (list nat))
    (analyze : matrix -> list string -> result analysis)
    (safe_load : string -> result document)
    (with_suffix : string -> string -> string)
    (savefig : string -> result unit) (show : result unit)
    (f : string) (e : exn) (s : rng_state) :
  let run := main rng_state draw ConvexHull analyze safe_load with_suffix
                  savefig show f s
  in
  (safe_load f = Raise e -> run = (Raise e, [], s)) /\
  (forall data, safe_load f = Ok data -> build data = Raise e ->
     run = (Raise e, [], s)) /\
  (forall data st m us, safe_load f = Ok data ->
     build data = Ok (st, m, us) -> analyze m st = Raise e ->
     run = (Raise e, [Analyze m st], s)).
Proof.
  intros run. split; [|split].
  - intros Hload. unfold run, main, load_from_yaml. rewrite Hload.
    reflexivity.
  - intros data Hload Hbuild.
    exact (main_load_fails rng_state draw ConvexHull analyze safe_load
             with_suffix savefig show f data e s Hload Hbuild).
  - intros data st m us Hload Hbuild Hres.
    exact (main_analyzer_fails rng_state draw ConvexHull analyze safe_load
             with_suffix savefig show f data st m us e s Hload Hbuild Hres).
Qed.

Lemma main_stops_on_failure_witness :
  main unit no_jitter no_hull no_analyzer (fun _ => Ok three_ballots)
       replace_suffix file_written figure_shown "poll.yaml" tt
  = (Raise (OtherError "no analyzer"),
     [Analyze {| n_rows := 3; n_cols := 2;
                 rows := [[1; -1]; [1; 1]; [-1; -1]]%Z |} ["s1"; "s2"]],
     tt).
Proof.
  exact (proj2 (proj2 (main_stops_on_failure unit no_jitter no_hull
           no_analyzer (fun _ => Ok three_ballots) replace_suffix
           file_written figure_shown "poll.yaml"
           (OtherError "no analyzer") tt))
         three_ballots _ _ _ eq_refl eq_refl eq_refl).
Defined.

Lemma add_jitter_lookup (pts jitter : list point) (i : nat) (p j : point) :
  pts !! i = Some p -> jitter !! i = Some j ->
  add_jitter pts jitter !! i = Some (fst p + fst j, snd p + snd j).
Proof.
  unfold add_jitter. revert jitter i.
  induction pts as [|q pts IH]; intros [|k jitter] [|i] Hp Hj;
    try discriminate; simpl in *.
  - inversion Hp. inversion Hj. reflexivity.
  - exact (IH jitter i Hp Hj).
Qed.

(** The events of a run of [main] that returns. *)
Lemma main_ok_events
    (rng_state : Type) (draw : rng_state -> R * rng_state)
    (ConvexHull : list point -> result (list nat))
    (analyze : matrix -> list string -> result analysis)
    (safe_load : string -> result document)
    (with_suffix : string -> string -> string)
    (savefig : string -> result unit) (show : result unit)
    (f : string) (s : rng_state) :
  let run := main rng_state draw ConvexHull analyze safe_load with_suffix
                  savefig show f s in
  let path := with_suffix f ".png" in
  outcome run = Ok tt -> path <> "" ->
  exists data m res jitter lim,
    safe_load f = Ok data /\
    build data = Ok (statements data, m, map fst (votes data)) /\
    analyze m (statements data) = Ok res /\
    let n := length (points_2d res) in
    normal rng_state draw n s = (Ok jitter, [], advance draw (2 * n) s) /\
    final run = advance draw (2 * n) s /\
    length jitter = n /\
    (forall i : nat, (i < n)%nat ->
       jitter !! i = Some (fst (draw (advance draw (2 * i) s)),
                           fst (draw (advance draw (2 * i + 1) s)))) /\
    let jittered := add_jitter (points_2d res) jitter in
    length jittered = n /\
    (forall (i : nat) p j,
       points_2d res !! i = Some p -> jitter !! i = Some j ->
       jittered !! i = Some (fst p + fst j, snd p + snd j)) /\
    view_limits jittered = Ok lim /\
    savefig path = Ok tt /\
    events run =
      Analyze m (statements data) :: Figure ::
        (flat_map (patch_of ConvexHull jittered (clusters res))
                  (np_unique (clusters res))
         ++ Scatter jittered (clusters res)
         :: (rows2 Annotate (map fst (votes data)) jittered
         ++ [SetLimits lim; Decorate; Savefig path;
             Stdout ("Plot saved to " ++ path); CloseFigure]))%list.
Proof.
  intros run path Hok Hpath. subst path.
  destruct (main_ok_inv rng_state draw ConvexHull analyze safe_load
              with_suffix savefig show f s Hok)
    as [data [m [res [Hload [Hbuild Hres]]]]].
  destruct (normal_draws rng_state draw (length (points_2d res)) s)
    as [jitter [Hnormal [Hlen Hrows]]].
  pose proof (main_run rng_state draw ConvexHull analyze safe_load
                with_suffix savefig show f data _ m _ res s Hload Hbuild
                Hres jitter Hnormal) as Hrun.
  cbv zeta in Hrun. unfold run in *. rewrite Hrun in *.
  change (outcome (plot_opinion_clusters rng_state ConvexHull savefig show
            (add_jitter (points_2d res) jitter) (clusters res)
            (map fst (votes data)) (Some (with_suffix f ".png"))
            (advance draw (2 * length (points_2d res)) s)) = Ok tt)
    in Hok.
  apply plot_ok_conditions in Hok.
  destruct Hok as [Hfit [Hh [Hus [[lim Hlim] Hsave]]]].
  assert (Hsavefig : savefig (with_suffix f ".png") = Ok tt).
  { unfold save_result in Hsave.
    replace (String.eqb (with_suffix f ".png") "") with false in Hsave
      by (symmetry; apply String.eqb_neq; exact Hpath).
    exact Hsave. }
  exists data, m, res, jitter, lim.
  rewrite (plot_run_ok ConvexHull savefig show _ _ _
             (Some (with_suffix f ".png")) lim _ Hfit
             (fun c Hc => proj2 (Hh c Hc)) Hus Hlim Hsave).
  split; [exact Hload|]. split; [exact Hbuild|]. split; [exact Hres|].
  cbv zeta. split; [exact Hnormal|]. split; [reflexivity|].
  split; [exact Hlen|]. split; [exact Hrows|].
  split; [apply add_jitter_length; exact Hlen|].
  split; [intros i p j; apply add_jitter_lookup|].
  split; [exact Hlim|]. split; [exact Hsavefig|].
  unfold events, save_events. cbn [fst snd].
  replace (String.eqb (with_suffix f ".png") "") with false
    by (symmetry; apply String.eqb_neq; exact Hpath).
  reflexivity.
Qed.

(** X7.  A run of [main] that returns has called the analyzer once, with the
    matrix and the statements of the document, drawn the jitter from the
    random generator, two draws to a point and in the order of the points,
    and plotted every point of the analyzer moved by its own jitter, with
    the participants of the document as labels, in the document's order; it
    has saved one figure, at the input path with the suffix .png, reported
    it, and closed the figure. *)
Theorem main_trace
    (rng_state : Type) (draw : rng_state -> R * rng_state)
    (ConvexHull : list point -> result (list nat))
    (analyze : matrix -> list string -> result analysis)
    (safe_load : string -> result document)
    (with_suffix : string -> string -> string)
    (savefig : string -> result unit) (show : result unit)
    (f : string) (s : rng_state) :
  let run := main rng_state draw ConvexHull analyze safe_load with_suffix
                  savefig show f s in
  let path := with_suffix f ".png" in
  outcome run = Ok tt -> path <> "" ->
  exists data m res jitter lim,
    safe_load f = Ok data /\
    build data = Ok (statements data, m, map fst (votes data)) /\
    analyze m (statements data) = Ok res /\
    let n := length (points_2d res) in
    normal rng_state draw n s = (Ok jitter, [], advance draw (2 * n) s) /\
    final run = advance draw (2 * n) s /\
    length jitter = n /\
    (forall i : nat, (i < n)%nat ->
       jitter !! i = Some (fst (draw (advance draw (2 * i) s)),
                           fst (draw (advance draw (2 * i + 1) s)))) /\
    let jittered := add_jitter (points_2d res) jitter in
    length jittered = n /\
    (forall (i : nat) p j,
       points_2d res !! i = Some p -> jitter !! i = Some j ->
       jittered !! i = Some (fst p + fst j, snd p + snd j)) /\
    view_limits jittered = Ok lim /\
    savefig path = Ok tt /\
    events run =
      Analyze m (statements data) :: Figure ::
        (flat_map (patch_of ConvexHull jittered (clusters res))
                  (np_unique (clusters res))
         ++ Scatter jittered (clusters res)
         :: (rows2 Annotate (map fst (votes data)) jittered
         ++ [SetLimits lim; Decorate; Savefig path;
             Stdout ("Plot saved to " ++ path); CloseFigure]))%list.
Proof.
  exact (main_ok_events rng_state draw ConvexHull analyze safe_load
           with_suffix savefig show f s).
Qed.

Lemma main_trace_witness :
  exists data m res (jitter : list point),
    build data = Ok (statements data, m, map fst (votes data)) /\
    fixed_analyzer m (statements data) = Ok res /\
    length jitter = length (points_2d res) /\
    add_jitter (points_2d res) jitter !! 1%nat
    = option_map (fun j => (1 + fst j, 2 + snd j)) (jitter !! 1%nat).
Proof.
  destruct (main_trace unit no_jitter no_hull fixed_analyzer
              (fun _ => Ok three_ballots) replace_suffix file_written
              figure_shown "poll.yaml" tt eq_refl)
    as [data [m [res [jitter [lim [H1 [H2 [H3 H]]]]]]]].
  - discriminate.
  - cbv zeta in H. destruct H as [_ [_ [Hlen [Hrows [_ [Hlook _]]]]]].
    exists data, m, res, jitter.
    split; [exact H2|]. split; [exact H3|]. split; [exact Hlen|].
    inversion H3; subst res.
    rewrite (Hrows 1%nat) by (simpl; lia).
    rewrite (Hlook 1%nat (1, 2) _ eq_refl (Hrows 1%nat ltac:(simpl; lia))).
    reflexivity.
Defined.

(** ** The clusters of the hull loop *)

Lemma insert_unique_in (x y : Z) (l : list Z) :
  In y (insert_unique x l) <-> y = x \/ In y l.
Proof.
  induction l as [|z l IH]; simpl.
  - intuition.
  - destruct (x <? z)%Z eqn:Hlt; simpl; [intuition|].
    destruct (x =? z)%Z eqn:Heq; simpl.
    + apply Z.eqb_eq in Heq. subst z. intuition.
    + rewrite IH. intuition.
Qed.

Lemma np_unique_in (y : Z) (l : list Z) : In y (np_unique l) <-> In y l.
Proof.
  induction l as [|x l IH]; simpl; [reflexivity|].
  rewrite insert_unique_in, IH. intuition.
Qed.

Lemma insert_unique_sorted (x : Z) (l : list Z) :
  StronglySorted Z.lt l -> StronglySorted Z.lt (insert_unique x l).
Proof.
  induction 1 as [|z l Hs IH Hall]; simpl.
  - repeat constructor.
  - rewrite List.Forall_forall in Hall.
    destruct (x <? z)%Z eqn:Hlt.
    + apply Z.ltb_lt in Hlt. constructor.
      * constructor; [exact Hs | apply List.Forall_forall; exact Hall].
      * constructor; [exact Hlt|]. apply List.Forall_forall.
        intros w Hw. specialize (Hall w Hw). lia.
    + destruct (x =? z)%Z eqn:Heq.
      * constructor; [exact Hs | apply List.Forall_forall; exact Hall].
      * apply Z.ltb_ge in Hlt. apply Z.eqb_neq in Heq.
        constructor; [exact IH|]. apply List.Forall_forall.
        intros w Hw. apply insert_unique_in in Hw.
        destruct Hw as [->|Hw]; [lia | exact (Hall w Hw)].
Qed.

Lemma np_unique_sorted (l : list Z) : StronglySorted Z.lt (np_unique l).
Proof.
  induction l as [|x l IH]; simpl; [constructor|].
  apply insert_unique_sorted, IH.
Qed.

Lemma sorted_NoDup (l : list Z) : StronglySorted Z.lt l -> List.NoDup l.
Proof.
  induction 1 as [|z l Hs IH Hall]; constructor; [|exact IH].
  intros Hin. rewrite List.Forall_forall in Hall.
  specialize (Hall z Hin). lia.
Qed.

Lemma cluster_points_cons (p : point) (ps : list point) (c0 : Z)
    (cs : list Z) (c : Z) :
  cluster_points (p :: ps) (c0 :: cs) c
  = if (c0 =? c)%Z then p :: cluster_points ps cs c
    else cluster_points ps cs c.
Proof. reflexivity. Qed.

Lemma flat_map_other_labels (p : point) (ps : list point) (c0 : Z)
    (cs labels : list Z) :
  ~ In c0 labels ->
  flat_map (cluster_points (p :: ps) (c0 :: cs)) labels
  = flat_map (cluster_points ps cs) labels.
Proof.
  induction labels as [|c labels IH]; intros Hnin; simpl; [reflexivity|].
  rewrite IH by (intros H; apply Hnin; right; exact H).
  rewrite cluster_points_cons.
  replace (c0 =? c)%Z with false; [reflexivity|].
  symmetry. apply Z.eqb_neq. intros ->. apply Hnin. left. reflexivity.
Qed.

Lemma flat_map_own_label (p : point) (ps : list point) (c0 : Z)
    (cs labels : list Z) :
  List.NoDup labels -> In c0 labels ->
  Permutation (flat_map (cluster_points (p :: ps) (c0 :: cs)) labels)
              (p :: flat_map (cluster_points ps cs) labels).
Proof.
  induction labels as [|c labels IH]; intros Hnd Hin; [contradiction|].
  inversion Hnd as [|? ? Hnin Hnd']; subst. simpl.
  rewrite cluster_points_cons. destruct (c0 =? c)%Z eqn:Heq.
  - apply Z.eqb_eq in Heq. subst c.
    rewrite flat_map_other_labels by exact Hnin. reflexivity.
  - apply Z.eqb_neq in Heq. destruct Hin as [->|Hin]; [congruence|].
    rewrite (IH Hnd' Hin). symmetry. apply Permutation_middle.
Qed.

Lemma clusters_cover (pts : list point) (cl labels : list Z) :
  length cl = length pts -> List.NoDup labels ->
  (forall c, In c cl -> In c labels) ->
  Permutation (flat_map (cluster_points pts cl) labels) pts.
Proof.
  revert cl. induction pts as [|p ps IH]; intros cl Hlen Hnd Hall.
  - replace (flat_map (cluster_points [] cl) labels) with (@nil point);
      [reflexivity|].
    clear. induction labels as [|c labels IH]; [reflexivity|].
    simpl. rewrite <- IH. reflexivity.
  - destruct cl as [|c0 cs]; [discriminate|].
    rewrite (flat_map_own_label p ps c0 cs labels Hnd)
      by (apply Hall; left; reflexivity).
    constructor. apply IH; [simpl in Hlen; lia | exact Hnd |].
    intros c Hc. apply Hall. right. exact Hc.
Qed.

(** X8.  The hull loop visits the labels that occur, each once, in
    increasing order, and the point sets it selects for them make up the
    points: every point is in the cluster of its label and in no other. *)
Theorem clusters_partition (pts : list point) (cl : list Z) :
  length cl = length pts ->
  (forall c, mask_index pts cl c = Ok (cluster_points pts cl c)) /\
  Permutation (flat_map (cluster_points pts cl) (np_unique cl)) pts /\
  StronglySorted Z.lt (np_unique cl) /\
  (forall c, In c (np_unique cl) <-> In c cl).
Proof.
  intros Hlen. split; [|split; [|split]].
  - intros c. unfold mask_index, cluster_points.
    rewrite Hlen, Nat.eqb_refl. reflexivity.
  - apply clusters_cover; [exact Hlen | |].
    + apply sorted_NoDup, np_unique_sorted.
    + intros c Hc. apply np_unique_in, Hc.
  - apply np_unique_sorted.
  - intros c. apply np_unique_in.
Qed.

Lemma clusters_partition_witness :
  Permutation
    (flat_map (cluster_points (points_2d three_points) [1; 0; 1]%Z)
              (np_unique [1; 0; 1]%Z))
    (points_2d three_points).
Proof.
  exact (proj1 (proj2 (clusters_partition (points_2d three_points)
                         [1; 0; 1]%Z eq_refl))).
Defined.

(** ** More on the boundary polygon *)

Lemma push_direction (c p : point) :
  0 < dist p c ->
  let t := 1 + margin / dist p c in
  1 < t /\
  fst (push c p) - fst c = t * (fst p - fst c) /\
  snd (push c p) - snd c = t * (snd p - snd c).
Proof.
  intros HL t. unfold t, push, dist in *. cbn [fst snd].
  set (L := sqrt ((fst p - fst c) ^ 2 + (snd p - snd c) ^ 2)) in *.
  split; [|split].
  - assert (0 < margin / L);
      [apply Rdiv_lt_0_compat; [unfold margin; lra | exact HL] | lra].
  - field. lra.
  - field. lra.
Qed.

(** X9.  When the hull computation succeeds, every buffered vertex lies on
    the ray from the centroid of the hull vertices through its hull vertex,
    beyond that vertex: the offset from the centroid is the vertex's offset
    times a factor greater than 1, and there is one buffered vertex for each
    hull vertex, in the same order. *)
Theorem buffer_keeps_direction
    (ConvexHull : list point -> result (list nat))
    (pts : list point) (vertices : list nat) :
  ConvexHull pts = Ok vertices -> hull_contract pts (ConvexHull pts) ->
  exists hull_points,
    take_rows pts vertices = Ok hull_points /\
    let centroid := np_mean hull_points in
    List.Forall2
      (fun b p => exists t : R, 1 < t /\
         fst b - fst centroid = t * (fst p - fst centroid) /\
         snd b - snd centroid = t * (snd p - snd centroid))
      (buffered_points hull_points) hull_points.
Proof.
  intros Hcall Hc. rewrite Hcall in Hc.
  destruct Hc as [hp [Htake [Hlen [Hnd Hvs]]]].
  exists hp. split; [exact Htake|]. intros centroid.
  rewrite buffered_points_rows. apply Forall2_rows. intros p Hp.
  pose proof (hull_points_off_centroid pts vertices hp Htake Hlen Hnd Hvs
                p Hp) as Hpos.
  exists (1 + margin / dist p centroid).
  exact (push_direction centroid p Hpos).
Qed.

Lemma buffer_keeps_direction_witness :
  exists hull_points,
    take_rows triangle [0; 1; 2]%nat = Ok hull_points /\
    length (buffered_points hull_points) = length hull_points.
Proof.
  destruct (buffer_keeps_direction triangle_hull triangle [0; 1; 2]%nat
              eq_refl triangle_contract) as [hp [Htake H]].
  exists hp. split; [exact Htake|].
  exact (List.Forall2_length H).
Defined.

Lemma Rsum_shift (f : point -> R) (d : R) (l : list point) :
  Rsum (map (fun p => f p + d) l) = Rsum (map f l) + INR (length l) * d.
Proof.
  induction l as [|p l IH].
  - simpl. lra.
  - change (f p + d + Rsum (map (fun p => f p + d) l)
            = f p + Rsum (map f l) + INR (S (length l)) * d).
    rewrite IH, S_INR. lra.
Qed.

Lemma np_mean_shift (t : point) (l : list point) :
  l <> [] -> np_mean (map (shift t) l) = shift t (np_mean l).
Proof.
  intros Hne. assert (Hn : 0 < INR (length l)).
  { apply lt_0_INR. destruct l; [congruence | simpl; lia]. }
  unfold np_mean, shift. rewrite !map_map, length_map. cbn [fst snd].
  rewrite (Rsum_shift fst (fst t) l), (Rsum_shift snd (snd t) l).
  assert (Hdiv : forall a n d : R, 0 < n -> (a + n * d) / n = a / n + d)
    by (intros; field; lra).
  rewrite !Hdiv by exact Hn. reflexivity.
Qed.

Lemma push_shift (t c p : point) :
  push (shift t c) (shift t p) = shift t (push c p).
Proof.
  unfold push, shift. cbn [fst snd].
  replace (fst p + fst t - (fst c + fst t)) with (fst p - fst c) by ring.
  replace (snd p + snd t - (snd c + snd t)) with (snd p - snd c) by ring.
  f_equal; ring.
Qed.

(** X10.  Moving all hull vertices by one vector moves the buffered
    vertices by the same vector: the shape of a boundary does not depend on
    where the cluster lies (in exact arithmetic). *)
Theorem buffer_commutes_with_shift (t : point) (hull_points : list point) :
  buffered_points (map (shift t) hull_points)
  = map (shift t) (buffered_points hull_points).
Proof.
  destruct hull_points as [|p0 rest]; [reflexivity|].
  rewrite !buffered_points_rows, np_mean_shift by discriminate.
  rewrite !map_map. apply map_ext. intros p. apply push_shift.
Qed.

(** ** More on the viewport *)

Lemma fold_min_in (l : list R) (x : R) :
  fold_left Rmin l x = x \/ In (fold_left Rmin l x) l.
Proof.
  revert x. induction l as [|y l IH]; intros x; simpl; [left; reflexivity|].
  destruct (IH (Rmin x y)) as [H|H]; [|right; right; exact H].
  rewrite H. unfold Rmin. destruct (Rle_dec x y); [left | right; left];
    reflexivity.
Qed.

Lemma fold_max_in (l : list R) (x : R) :
  fold_left Rmax l x = x \/ In (fold_left Rmax l x) l.
Proof.
  revert x. induction l as [|y l IH]; intros x; simpl; [left; reflexivity|].
  destruct (IH (Rmax x y)) as [H|H]; [|right; right; exact H].
  rewrite H. unfold Rmax. destruct (Rle_dec x y); [right; left | left];
    reflexivity.
Qed.

Lemma np_min_in (l : list R) (m : R) : np_min l = Ok m -> In m l.
Proof.
  destruct l as [|x l]; simpl; [discriminate|]. intros H. inversion H.
  destruct (fold_min_in l x) as [->|Hin]; [left; reflexivity | right; exact Hin].
Qed.

Lemma np_max_in (l : list R) (m : R) : np_max l = Ok m -> In m l.
Proof.
  destruct l as [|x l]; simpl; [discriminate|]. intros H. inversion H.
  destruct (fold_max_in l x) as [->|Hin]; [left; reflexivity | right; exact Hin].
Qed.

(** X11.  The limits of the view are taken from points of the plot: on each
    axis the smallest and the largest coordinate are those of two plotted
    points, each limit lies 20% of the span beyond its extreme point, and the
    view is 1.4 times the span wide.  When all points share a coordinate,
    the two limits of that axis coincide with it. *)
Theorem view_margins (pts : list point) (lim : limits) :
  view_limits pts = Ok lim ->
  exists left right bottom top : point,
    In left pts /\ In right pts /\ In bottom pts /\ In top pts /\
    List.Forall (fun p => fst left <= fst p <= fst right /\
                          snd bottom <= snd p <= snd top) pts /\
    fst left - fst (xlim lim) = 0.2 * (fst right - fst left) /\
    snd (xlim lim) - fst right = 0.2 * (fst right - fst left) /\
    snd bottom - fst (ylim lim) = 0.2 * (snd top - snd bottom) /\
    snd (ylim lim) - snd top = 0.2 * (snd top - snd bottom) /\
    snd (xlim lim) - fst (xlim lim) = 1.4 * (fst right - fst left) /\
    snd (ylim lim) - fst (ylim lim) = 1.4 * (snd top - snd bottom) /\
    (fst left = fst right -> xlim lim = (fst left, fst left)) /\
    (snd bottom = snd top -> ylim lim = (snd bottom, snd bottom)).
Proof.
  unfold view_limits. intros H.
  destruct (np_min (map fst pts)) as [x_min|] eqn:Hxmin; [|discriminate].
  destruct (np_max (map fst pts)) as [x_max|] eqn:Hxmax; [|discriminate].
  destruct (np_min (map snd pts)) as [y_min|] eqn:Hymin; [|discriminate].
  destruct (np_max (map snd pts)) as [y_max|] eqn:Hymax; [|discriminate].
  cbn [rbind] in H. inversion H; subst lim; clear H. cbn [xlim ylim fst snd].
  destruct (proj1 (in_map_iff _ _ _) (np_min_in _ _ Hxmin)) as [l [Hl Hlin]].
  destruct (proj1 (in_map_iff _ _ _) (np_max_in _ _ Hxmax)) as [r [Hr Hrin]].
  destruct (proj1 (in_map_iff _ _ _) (np_min_in _ _ Hymin)) as [b [Hb Hbin]].
  destruct (proj1 (in_map_iff _ _ _) (np_max_in _ _ Hymax)) as [t [Ht Htin]].
  exists l, r, b, t. rewrite Hl, Hr, Hb, Ht.
  repeat (split; [assumption|]). split.
  - apply List.Forall_forall. intros p Hp.
    pose proof (np_min_le _ _ (fst p) Hxmin (in_map fst _ _ Hp)).
    pose proof (np_max_ge _ _ (fst p) Hxmax (in_map fst _ _ Hp)).
    pose proof (np_min_le _ _ (snd p) Hymin (in_map snd _ _ Hp)).
    pose proof (np_max_ge _ _ (snd p) Hymax (in_map snd _ _ Hp)).
    lra.
  - repeat (split; [lra|]). split; intros ->; f_equal; lra.
Qed.

Lemma view_margins_witness :
  exists left right bottom top : point,
    In left [(1, 2)] /\ In right [(1, 2)] /\
    In bottom [(1, 2)] /\ In top [(1, 2)].
Proof.
  destruct (view_margins [(1, 2)] _ eq_refl)
    as [l [r [b [t [Hl [Hr [Hb [Ht _]]]]]]]].
  exists l, r, b, t. auto.
Defined.

(** ** The command line *)

(** X12.  Started with a number of arguments other than one, the script
    prints the usage line and exits through SystemExit(1): the analyzer is
    not called and no figure is opened.  A run that ends normally was given
    exactly one argument, ran [main] on it, and has saved a figure at that
    path with the suffix .png and closed it. *)
Theorem cli_saves_or_exits
    (rng_state : Type) (draw : rng_state -> R * rng_state)
    (ConvexHull : list point -> result (list nat))
    (analyze : matrix -> list string -> result analysis)
    (safe_load : string -> result document)
    (with_suffix : string -> string -> string)
    (savefig : string -> result unit) (show : result unit)
    (argv : list string) (s : rng_state) :
  let run := cli rng_state draw ConvexHull analyze safe_load with_suffix
                 savefig show
                 argv s in
  (length argv <> 2%nat -> run = (Raise system_exit, [Stdout usage], s)) /\
  (outcome run = Ok tt ->
   exists prog f,
     argv = [prog; f] /\
     run = main rng_state draw ConvexHull analyze safe_load with_suffix
                savefig show f s /\
     (with_suffix f ".png" <> "" ->
      In (Savefig (with_suffix f ".png")) (events run) /\
      In CloseFigure (events run))).
Proof.
  intros run. unfold run, cli. split.
  - intros Hn. replace (Nat.eqb (length argv) 2) with false
      by (symmetry; apply Nat.eqb_neq; exact Hn).
    reflexivity.
  - destruct (Nat.eqb (length argv) 2) eqn:Hn; cbn [negb];
      [|intros H; discriminate H].
    apply Nat.eqb_eq in Hn.
    destruct argv as [|prog [|f [|x argv]]]; try discriminate Hn.
    change ([prog; f] !! 1%nat) with (Some f). cbv iota.
    intros Hok. exists prog, f.
    split; [reflexivity|]. split; [reflexivity|]. intros Hpath.
    destruct (main_ok_events rng_state draw ConvexHull analyze safe_load
                with_suffix savefig show f s Hok Hpath)
      as [data [m [res [jitter [lim [_ [_ [_ H]]]]]]]].
    cbv zeta in H.
    destruct H as [_ [_ [_ [_ [_ [_ [_ [_ Hev]]]]]]]].
    rewrite Hev. split.
    + right. right. apply in_or_app. right. right.
      apply in_or_app. right. simpl. auto.
    + right. right. apply in_or_app. right. right.
      apply in_or_app. right. simpl. auto 6.
Qed.

Lemma cli_saves_or_exits_witness :
  cli unit no_jitter no_hull fixed_analyzer (fun _ => Ok three_ballots)
      replace_suffix file_written figure_shown ["plot_opinions.py"] tt
  = (Raise system_exit, [Stdout usage], tt).
Proof.
  apply (proj1 (cli_saves_or_exits unit no_jitter no_hull fixed_analyzer
                  (fun _ => Ok three_ballots) replace_suffix
                  file_written figure_shown
                  ["plot_opinions.py"] tt)).
  simpl. lia.
Defined.

(** ** Patches and clusters *)

Lemma close_polygon_ok (bp polygon : list point) :
  close_polygon bp = Ok polygon ->
  bp <> [] /\ polygon = (bp ++ firstn 1 bp)%list.
Proof.
  destruct bp as [|p bp]; simpl; [discriminate|].
  intros H. inversion H. split; [discriminate | reflexivity].
Qed.

Lemma buffered_points_length (hull_points : list point) :
  length (buffered_points hull_points) = length hull_points.
Proof. rewrite buffered_points_rows. apply length_map. Qed.

(** X13.  In a plot that returns, a cluster of fewer than three points has
    no patch, and a cluster of three or more points has exactly one: its
    hull call has returned indices of its own points, at least one, and the
    patch is the closed polygon of the buffered hull vertices, in the colour
    of the cluster's label. *)
Theorem patches_of_a_plot
    (rng_state : Type) (ConvexHull : list point -> result (list nat))
    (savefig : string -> result unit) (show : result unit)
    (pts : list point) (cl : list Z) (us : list string)
    (out : option string) (s : rng_state) (c : Z) :
  outcome (plot_opinion_clusters rng_state ConvexHull savefig show
             pts cl us out s) = Ok tt
  -> In c (np_unique cl) ->
  let cp := cluster_points pts cl c in
  ((length cp < 3)%nat -> patch_of ConvexHull pts cl c = []) /\
  ((3 <= length cp)%nat ->
   exists vertices hull_points,
     ConvexHull cp = Ok vertices /\
     take_rows cp vertices = Ok hull_points /\ hull_points <> [] /\
     patch_of ConvexHull pts cl c
     = [AddPatch (buffered_points hull_points
                  ++ firstn 1 (buffered_points hull_points))%list
                 (cluster_color c cl)]).
Proof.
  intros Hok Hc cp. apply plot_ok_conditions in Hok.
  destruct Hok as [_ [Hh _]]. destruct (Hh c Hc) as [Hlen [b Hb]].
  fold cp in Hb. unfold patch_of.
  rewrite (mask_index_ok pts cl c Hlen). fold cp. split.
  - intros Hsmall. rewrite (boundary_too_small ConvexHull cp Hsmall).
    reflexivity.
  - intros Hbig. unfold cluster_boundary in *.
    replace (3 <=? length cp)%nat with true in *
      by (symmetry; apply Nat.leb_le; exact Hbig).
    destruct (ConvexHull cp) as [vertices|e] eqn:Hcall; [|discriminate].
    cbn [rbind] in *.
    destruct (take_rows cp vertices) as [hp|e] eqn:Htake; [|discriminate].
    cbn [rbind] in *.
    destruct (close_polygon (buffered_points hp)) as [polygon|e] eqn:Hclose;
      [|discriminate].
    cbn [rbind]. apply close_polygon_ok in Hclose.
    destruct Hclose as [Hne ->].
    exists vertices, hp.
    split; [first [reflexivity | exact Hcall]|].
    split; [first [reflexivity | exact Htake]|].
    split; [|reflexivity].
    intros ->. apply Hne. reflexivity.
Qed.

Lemma patches_of_a_plot_witness :
  patch_of no_hull (points_2d three_points) (clusters three_points) 0 = [].
Proof.
  refine (proj1 (patches_of_a_plot unit no_hull file_written figure_shown
                   (points_2d three_points)
                   (clusters three_points) ["alice"; "bob"; "carol"]
                   (Some "poll.png") tt 0%Z eq_refl _) _).
  - left. reflexivity.
  - simpl. lia.
Defined.

(** ** The path of the image *)

Example suffix_example :
  replace_suffix "data/poll.yaml" ".png" = "data/poll.png".
Proof. reflexivity. Qed.

Example suffix_example_plain :
  replace_suffix "v1.2/poll" ".png" = "v1.2/poll.png".
Proof. reflexivity. Qed.
